(** * Verification model of comic_scraper (src/comic_scraper.py,
    src/services/cloudinary_service.py, src/models/comic.py).

    Shallow embedding: the Python coroutines become computations in a
    small state/exception monad over a [World] holding the remote asset
    store, the answers of the network and a log of the effects performed.
    Python floats are modelled as IEEE-754 binary64 values (significand
    and binary exponent), with [float()] on digit strings as correct
    rounding and [repr] as the shortest round-trip digits. *)

From Stdlib Require Import ZArith QArith List String Ascii Bool Lia
  Sorted Permutation Relations.
Import ListNotations.

Local Open Scope string_scope.
Local Open Scope Z_scope.

(* ------------------------------------------------------------------ *)
(** ** Strings: the pieces of Python's str API the code uses *)

Module Str.

Definition is_digit (c : ascii) : bool :=
  let n := nat_of_ascii c in (48 <=? n)%nat && (n <=? 57)%nat.

Fixpoint all_digits (s : string) : bool :=
  match s with
  | EmptyString => true
  | String c s' => is_digit c && all_digits s'
  end.

(** Maximal prefix of ASCII digits (greedy [\d+]) and the rest. *)
Fixpoint take_digits (s : string) : string * string :=
  match s with
  | String c s' =>
      if is_digit c then let '(d, r) := take_digits s' in (String c d, r)
      else (EmptyString, s)
  | EmptyString => (EmptyString, EmptyString)
  end.

(** [Some rest] when [p] is a prefix of [s]. *)
Fixpoint strip_prefix (p s : string) : option string :=
  match p, s with
  | EmptyString, _ => Some s
  | String a p', String b s' =>
      if Ascii.eqb a b then strip_prefix p' s' else None
  | String _ _, EmptyString => None
  end.

(** [re.search]: leftmost position at which the matcher succeeds. *)
Fixpoint search {A} (m : string -> option A) (s : string) : option A :=
  match m s with
  | Some r => Some r
  | None =>
      match s with
      | EmptyString => None
      | String _ s' => search m s'
      end
  end.

(** [str.isspace] on ASCII characters. *)
Definition is_space (c : ascii) : bool :=
  let n := nat_of_ascii c in
  (n =? 32)%nat || ((9 <=? n)%nat && (n <=? 13)%nat)
  || ((28 <=? n)%nat && (n <=? 31)%nat).

Fixpoint lstrip (s : string) : string :=
  match s with
  | String c s' => if is_space c then lstrip s' else s
  | EmptyString => EmptyString
  end.

Fixpoint rev_str (s : string) : string :=
  match s with
  | EmptyString => EmptyString
  | String c s' => append (rev_str s') (String c EmptyString)
  end.

(** [str.strip()] *)
Definition strip (s : string) : string := rev_str (lstrip (rev_str (lstrip s))).

(** The digits of a base-10 integer literal after its first digit: digits,
    an underscore only between two digits. *)
Fixpoint int_digits (acc : Z) (s : string) : option Z :=
  match s with
  | EmptyString => Some acc
  | String c s' =>
      if is_digit c then int_digits (10 * acc + (Z.of_nat (nat_of_ascii c) - 48)) s'
      else if Ascii.eqb c "_"%char then
        match s' with
        | String d s'' =>
            if is_digit d then int_digits (10 * acc + (Z.of_nat (nat_of_ascii d) - 48)) s''
            else None
        | EmptyString => None
        end
      else None
  end.

Definition int_unsigned (s : string) : option Z :=
  match s with
  | String d s' =>
      if is_digit d then int_digits (Z.of_nat (nat_of_ascii d) - 48) s' else None
  | EmptyString => None
  end.

(** [int(s)] on ASCII text: surrounding whitespace, an optional sign, then
    the digits; [None] is the ValueError. *)
Definition py_int (s : string) : option Z :=
  match strip s with
  | String "-"%char r => option_map Z.opp (int_unsigned r)
  | String "+"%char r => int_unsigned r
  | t => int_unsigned t
  end.

(** [str.replace(a, b)] for single characters. *)
Fixpoint replace_char (a b : ascii) (s : string) : string :=
  match s with
  | EmptyString => EmptyString
  | String c s' => String (if Ascii.eqb c a then b else c) (replace_char a b s')
  end.

(** [str.split(sep)] for a one-character separator. *)
Fixpoint split (sep : ascii) (s : string) : list string :=
  match s with
  | EmptyString => [EmptyString]
  | String c s' =>
      match split sep s' with
      | [] => []
      | w :: ws => if Ascii.eqb c sep then EmptyString :: w :: ws
                   else String c w :: ws
      end
  end.

Definition digit_char (d : Z) : ascii := ascii_of_nat (Z.to_nat (48 + d)).

(** Decimal digits of a non-negative integer (["0"] for 0). *)
Fixpoint digits_aux (fuel : nat) (n : Z) (acc : string) : string :=
  match fuel with
  | O => String (digit_char n) acc
  | S f =>
      if n <? 10 then String (digit_char n) acc
      else digits_aux f (n / 10) (String (digit_char (n mod 10)) acc)
  end.

Definition z_digits (n : Z) : string :=
  digits_aux (Z.to_nat (Z.log2 n + 1)) n EmptyString.

Definition z_ndigits (n : Z) : Z := Z.of_nat (length (z_digits n)).

(** [int(s)] on a digit string. *)
Fixpoint z_of_digits_aux (acc : Z) (s : string) : Z :=
  match s with
  | EmptyString => acc
  | String c s' => z_of_digits_aux (10 * acc + (Z.of_nat (nat_of_ascii c) - 48)) s'
  end.

Definition z_of_digits (s : string) : Z := z_of_digits_aux 0 s.

Fixpoint zeros (n : nat) : string :=
  match n with O => EmptyString | S k => String "0"%char (zeros k) end.

Fixpoint strip_trailing_zeros_rev (s : string) : string :=
  match s with
  | String "0"%char s' => strip_trailing_zeros_rev s'
  | _ => s
  end.

Definition strip_trailing_zeros (s : string) : string :=
  rev_str (strip_trailing_zeros_rev (rev_str s)).

End Str.

(* ------------------------------------------------------------------ *)
(** ** Python floats as IEEE-754 binary64 *)

Module PyFloat.

(** [Fin neg m e] is (-1)^neg * m * 2^e with 0 <= m < 2^53. *)
Inductive pyfloat :=
| Fin (neg : bool) (m : Z) (e : Z)
| Inf (neg : bool)
| NaN.

(** Round half to even of [num / den] (den > 0). *)
Definition rne (num den : Z) : Z :=
  let q := num / den in
  let r := num mod den in
  match Z.compare (2 * r) den with
  | Lt => q
  | Gt => q + 1
  | Eq => if Z.even q then q else q + 1
  end.

(** [p / q >= b^k] for [k] of either sign. *)
Definition ge_scaled (b p q k : Z) : bool :=
  if 0 <=? k then q * b ^ k <=? p else q <=? p * b ^ (- k).

(** The double nearest to [p / q] (p >= 0, q > 0), ties to even, with
    gradual underflow and overflow to infinity. *)
Definition round_pos (p q : Z) : pyfloat :=
  if p =? 0 then Fin false 0 0 else
  let t := Z.log2 p - Z.log2 q in
  let fl := if ge_scaled 2 p q t then t else t - 1 in
  let e := Z.max (fl - 52) (-1074) in
  let m := if 0 <=? e then rne p (q * 2 ^ e) else rne (p * 2 ^ (- e)) q in
  let '(m, e) := if m =? 2 ^ 53 then (2 ^ 52, e + 1) else (m, e) in
  if 971 <? e then Inf false else Fin false m e.

(** [float(s)] for [s] = digits [int] optionally followed by "." and
    digits [frac], as captured by the chapter regex. *)
Definition float_of_dec (int : string) (frac : option string) : pyfloat :=
  match frac with
  | None => round_pos (Str.z_of_digits int) 1
  | Some f =>
      round_pos (Str.z_of_digits (append int f)) (10 ^ Z.of_nat (length f))
  end.

(** Exact value of a finite float. *)
Definition val_abs (m e : Z) : Q :=
  if 0 <=? e then inject_Z (m * 2 ^ e) else Qmake m (Z.to_pos (2 ^ (- e))).

Definition val (neg : bool) (m e : Z) : Q :=
  if neg then Qopp (val_abs m e) else val_abs m e.

(** Python's float comparison; [None] when a NaN is involved. *)
Definition cmp (x y : pyfloat) : option comparison :=
  match x, y with
  | NaN, _ | _, NaN => None
  | Inf a, Inf b =>
      Some (match a, b with
            | true, true | false, false => Eq
            | true, false => Lt
            | false, true => Gt end)
  | Inf a, Fin _ _ _ => Some (if a then Lt else Gt)
  | Fin _ _ _, Inf b => Some (if b then Gt else Lt)
  | Fin a m e, Fin b m' e' => Some (Qcompare (val a m e) (val b m' e'))
  end.

(** [x < y] and [x >= y] *)
Definition lt (x y : pyfloat) : bool :=
  match cmp x y with Some Lt => true | _ => false end.

Definition ge (x y : pyfloat) : bool :=
  match cmp x y with Some Gt | Some Eq => true | _ => false end.


(** [bool(x)]: only zeros are falsy. *)
Definition truthy (x : pyfloat) : bool :=
  match x with Fin _ m _ => negb (m =? 0) | _ => true end.

(** ** [repr(x)] (float_repr_style 'short') *)

(** Rational magnitude [p / q] of a finite float. *)
Definition as_ratio (m e : Z) : Z * Z :=
  if 0 <=? e then (m * 2 ^ e, 1) else (m, 2 ^ (- e)).

(** [floor (log10 (p / q))] *)
Definition floor_log10 (p q : Z) : Z :=
  let t := Str.z_ndigits p - Str.z_ndigits q in
  if ge_scaled 10 p q t then t else t - 1.

(** [D * 10^s] read back as a double. *)
Definition read_back (d s : Z) : pyfloat :=
  if 0 <=? s then round_pos (d * 10 ^ s) 1 else round_pos d (10 ^ (- s)).

Definition same_value (x y : pyfloat) : bool :=
  match x, y with
  | Fin a m e, Fin b m' e' => Qeq_bool (val a m e) (val b m' e')
  | _, _ => false
  end.

(** Candidate [k]-digit decimals for [p / q]: the nearest one first,
    then its other neighbour. *)
Definition candidates (p q k : Z) : Z * list Z :=
  let s := floor_log10 p q - k + 1 in
  let '(num, den) := if 0 <=? s then (p, q * 10 ^ s) else (p * 10 ^ (- s), q) in
  let d := rne num den in
  let fl := num / den in
  (s, [d; if d =? fl then fl + 1 else fl]).

(** Shortest digit string that reads back to [x] ([_Py_dg_dtoa] mode 0),
    as (digits, decpt): value = 0.digits * 10^decpt. *)
Fixpoint shortest_from (x : pyfloat) (p q : Z) (k : Z) (fuel : nat) : string * Z :=
  let '(s, ds) := candidates p q k in
  let ok := filter (fun d => same_value (read_back d s) x) ds in
  let result d :=
    (Str.strip_trailing_zeros (Str.z_digits d), s + Str.z_ndigits d) in
  match ok with
  | d :: _ => result d
  | [] =>
      match fuel with
      | O => result (hd 0 ds)
      | S f => shortest_from x p q (k + 1) f
      end
  end.

Definition shortest (x : pyfloat) (m e : Z) : string * Z :=
  let '(p, q) := as_ratio m e in shortest_from x p q 1 16.

(** Exponent suffix of [format_float_short]: ["e"] and [%+.02d]. *)
Definition exp_suffix (x : Z) : string :=
  let body := Str.z_digits (Z.abs x) in
  append "e" (append (if x <? 0 then "-" else "+")
                     (if Z.abs x <? 10 then String "0"%char body else body)).

(** [format_float_short] in mode 'r' with [Py_DTSF_ADD_DOT_0]. *)
Definition format_r (digits : string) (decpt : Z) : string :=
  let len := Z.of_nat (length digits) in
  if (decpt <=? -4) || (16 <? decpt) then
    match digits with
    | String d rest =>
        append (String d EmptyString)
          (append (match rest with EmptyString => EmptyString
                                 | _ => String "."%char rest end)
                  (exp_suffix (decpt - 1)))
    | EmptyString => exp_suffix (decpt - 1)
    end
  else if decpt <=? 0 then
    append "0." (append (Str.zeros (Z.to_nat (- decpt))) digits)
  else if decpt <=? len then
    append (substring 0 (Z.to_nat decpt) digits)
      (append "." (if decpt =? len then "0"
                   else substring (Z.to_nat decpt) (length digits) digits))
  else append digits (append (Str.zeros (Z.to_nat (decpt - len))) ".0").

Definition repr (x : pyfloat) : string :=
  match x with
  | NaN => "nan"
  | Inf neg => if neg then "-inf" else "inf"
  | Fin neg m e =>
      let sign := if neg then "-" else EmptyString in
      if m =? 0 then append sign "0.0"
      else let '(ds, decpt) := shortest x m e in append sign (format_r ds decpt)
  end.

End PyFloat.

(* ------------------------------------------------------------------ *)
(** ** The world the coroutines run in *)

Module Effects.

(** Body of a successful page response, as the markup extraction sees it:
    the [src] of every [#chapter_body > .main-reading-area img]. *)
Record body := mkBody { body_imgs : list string }.

(** Answer of the network to one GET: a 2xx response, an error status
    (>= 400, with the text of its [Retry-After] header when present), or a
    transport failure. *)
Inductive http_resp :=
| HttpOk (b : body)
| HttpStatus (code : Z) (retry_after : option string)
| HttpConnErr.

(** Effects performed, in order. *)
Inductive event :=
| EvResources (prefix : string)        (* api.resources(prefix=..., max_results=1) *)
| EvGet (url : string)                 (* one HTTP GET *)
| EvSleep (secs : Z)                   (* asyncio.sleep(secs) *)
| EvRateDelay                          (* asyncio.sleep(random.uniform(2, 5)) *)
| EvUpload (folder filename : string). (* uploader.upload(..., folder, public_id) *)

(** Python exceptions the modelled code can raise. *)
Inductive exn :=
| ExnConn            (* transport error (aiohttp.ClientError / requests) *)
| ExnHttp (code : Z) (* raise_for_status *)
| ExnValue           (* ValueError *)
| ExnKey.            (* KeyError *)

Record World := mkWorld {
  w_assets : list string;           (* public ids held by the asset host *)
  w_api_up : bool;                  (* whether api.resources answers *)
  w_http : list http_resp;          (* answers to the successive GETs *)
  w_upload : list (option string);  (* secure_url of successive uploads, None on failure *)
  w_log : list event                (* effects so far, oldest first *)
}.

Inductive result (A : Type) := Ok (a : A) | Raise (e : exn).
Arguments Ok {A} a.
Arguments Raise {A} e.

Definition M (A : Type) := World -> result A * World.

Definition ret {A} (a : A) : M A := fun w => (Ok a, w).
Definition raise {A} (e : exn) : M A := fun w => (Raise e, w).
Definition bind {A B} (m : M A) (k : A -> M B) : M B :=
  fun w => match m w with
           | (Ok a, w') => k a w'
           | (Raise e, w') => (Raise e, w')
           end.

Notation "x <- m ;; k" := (bind m (fun x => k))
  (at level 61, m at next level, right associativity).
Notation "m ;;; k" := (bind m (fun _ => k))
  (at level 61, right associativity).

(** [try: m except Exception: h] *)
Definition try_except {A} (m : M A) (h : exn -> M A) : M A :=
  fun w => match m w with
           | (Raise e, w') => h e w'
           | r => r
           end.

Definition emit (ev : event) : M unit :=
  fun w => (Ok tt, mkWorld (w_assets w) (w_api_up w) (w_http w) (w_upload w)
                          (w_log w ++ [ev])%list).

Definition sleep (secs : Z) : M unit := emit (EvSleep secs).

(** One GET: logs it and consumes the next answer of the network. *)
Definition http_get (url : string) : M http_resp :=
  fun w =>
    let '(r, rest) := match w_http w with
                      | [] => (HttpConnErr, [])
                      | r :: rest => (r, rest)
                      end in
    (Ok r, mkWorld (w_assets w) (w_api_up w) rest (w_upload w)
                   (w_log w ++ [EvGet url])%list).

(* ------------------------------------------------------------------ *)
(** ** src/services/cloudinary_service.py *)

(** [api.resources(type="upload", prefix=p, max_results=1)] is non-empty;
    any API failure is caught and reported as [False]. *)
Definition resources_nonempty (p : string) : M bool :=
  fun w =>
    (Ok (if w_api_up w then existsb (prefix p) (w_assets w) else false),
     mkWorld (w_assets w) (w_api_up w) (w_http w) (w_upload w)
             (w_log w ++ [EvResources p])%list).

Definition folder_exists (folder_path : string) : M bool :=
  resources_nonempty folder_path.

Definition file_exists (folder filename : string) : M bool :=
  resources_nonempty (folder ++ "/" ++ filename).

(** [upload_image]: public id [folder/filename] (unique_filename=False);
    returns the secure_url, or [None] when the upload fails. *)
Definition upload_image (folder filename : string) : M (option string) :=
  fun w =>
    let log := (w_log w ++ [EvUpload folder filename])%list in
    match w_upload w with
    | Some url :: rest =>
        (Ok (Some url),
         mkWorld (app (w_assets w) [folder ++ "/" ++ filename])
                 (w_api_up w) (w_http w) rest log)
    | None :: rest => (Ok None, mkWorld (w_assets w) (w_api_up w) (w_http w) rest log)
    | [] => (Ok None, mkWorld (w_assets w) (w_api_up w) (w_http w) [] log)
    end.

End Effects.

(* ------------------------------------------------------------------ *)
(** ** src/comic_scraper.py *)

Module Scraper.
Import Effects PyFloat.

Definition MAX_CONCURRENT_DOWNLOADS : nat := 3.
Definition MAX_RETRIES : nat := 3.
Definition RETRY_DELAY : Z := 2.

(** [fetch_data_with_retry]: [attempt] is the loop index, [remaining]
    the iterations of [range(max_retries)] still to run.  Any exception
    is caught; the last attempt re-raises it. *)
Fixpoint fetch_retry_loop (url : string) (attempt remaining : nat) : M (option body) :=
  match remaining with
  | O => ret None
  | S r =>
      let on_error (e : exn) :=
        if Nat.eqb r 0 then raise e
        else sleep (RETRY_DELAY * 2 ^ Z.of_nat attempt) ;;;
             fetch_retry_loop url (S attempt) r in
      resp <- http_get url ;;
      match resp with
      | HttpOk b => ret (Some b)
      | HttpStatus code _ => on_error (ExnHttp code)
      | HttpConnErr => on_error ExnConn
      end
  end.

Definition fetch_data_with_retry (url : string) (max_retries : nat) : M (option body) :=
  fetch_retry_loop url 0 max_retries.

(** [int(response.headers.get('Retry-After', 60))]: the header's text
    through [int()], 60 when it is absent; [None] is the ValueError of a
    value [int()] rejects (an HTTP-date, say). *)
Definition retry_after_secs (h : option string) : option Z :=
  match h with Some s => Str.py_int s | None => Some 60 end.

(** [url.split('/')[-1].split('.')[0]] *)
Definition image_filename (url : string) : string :=
  hd EmptyString (Str.split "."%char (last (Str.split "/"%char url) EmptyString)).

(** Folder and public id of the upload, or [None] for the ValueError. *)
Definition upload_target (url comic_slug : string) (chapter : option string)
    (is_cover : bool) : option (string * string) :=
  if is_cover then Some (comic_slug, "cover")
  else match chapter with
       | Some c =>
           if String.eqb c EmptyString then None
           else Some (comic_slug ++ "/chapter-" ++ c, image_filename url)
       | None => None
       end.

(** The [for attempt in range(retries)] loop of [download_image].  A 429
    sleeps and [continue]s, or raises the ValueError of [int()], which the
    [except aiohttp.ClientError] does not catch; [aiohttp.ClientError] (transport failure or
    [raise_for_status]) backs off [2 ** attempt] seconds, re-raised on the
    last attempt; other exceptions propagate. *)
Fixpoint download_loop (url comic_slug : string) (chapter : option string)
    (is_cover : bool) (attempt remaining : nat) : M (option string) :=
  match remaining with
  | O => ret None
  | S r =>
      let next := download_loop url comic_slug chapter is_cover (S attempt) r in
      let on_client_error (e : exn) :=
        if Nat.eqb r 0 then raise e else sleep (2 ^ Z.of_nat attempt) ;;; next in
      resp <- http_get url ;;
      match resp with
      | HttpStatus code h =>
          if code =? 429 then
            match retry_after_secs h with
            | Some wait_time => sleep wait_time ;;; next
            | None => raise ExnValue
            end
          else on_client_error (ExnHttp code)
      | HttpConnErr => on_client_error ExnConn
      | HttpOk _ =>
          match upload_target url comic_slug chapter is_cover with
          | None => raise ExnValue
          | Some (folder, filename) =>
              res <- upload_image folder filename ;;
              ret (Some (match res with Some u => u | None => EmptyString end))
          end
      end
  end.

(** [download_image], wrapped by [rate_limited()]. *)
Definition download_image (url comic_slug : string) (chapter : option string)
    (is_cover : bool) (retries : nat) : M (option string) :=
  emit EvRateDelay ;;; download_loop url comic_slug chapter is_cover 0 retries.

(** [fetch_data]: one blocking [requests.get] and [raise_for_status]. *)
Definition fetch_data (url : string) : M body :=
  resp <- http_get url ;;
  match resp with
  | HttpOk b => ret b
  | HttpStatus code _ => raise (ExnHttp code)
  | HttpConnErr => raise ExnConn
  end.

(** [re.search(r'chapter-(\d+)', url).group(1)] *)
Definition match_chapter_num (s : string) : option string :=
  match Str.strip_prefix "chapter-" s with
  | Some rest =>
      let '(d, _) := Str.take_digits rest in
      if String.eqb d EmptyString then None else Some d
  | None => None
  end.

Definition chapter_num_of_url (url : string) : option string :=
  Str.search match_chapter_num url.

(** The per-image loop of [scrape_chapter_images]: keeps truthy urls. *)
Fixpoint download_each (imgs : list string) (comic_slug chapter_num : string)
    (acc : list string) : M (list string) :=
  match imgs with
  | [] => ret acc
  | img :: imgs' =>
      u <- download_image img comic_slug (Some chapter_num) false 3 ;;
      let acc' := match u with
                  | Some s => if String.eqb s EmptyString then acc else app acc [s]
                  | None => acc
                  end in
      download_each imgs' comic_slug chapter_num acc'
  end.

(** [chapter_folder = f"{comic_slug}/chapter-{chapter_num}"] *)
Definition chapter_folder (comic_slug chapter_num : string) : string :=
  comic_slug ++ "/chapter-" ++ chapter_num.

Definition scrape_chapter_images (url comic_slug : string) : M (list string) :=
  try_except
    (match chapter_num_of_url url with
     | None => raise ExnValue
     | Some chapter_num =>
         ex <- folder_exists (chapter_folder comic_slug chapter_num) ;;
         if ex then ret []
         else
           b <- fetch_data url ;;
           download_each (body_imgs b) comic_slug chapter_num []
     end)
    (fun _ => ret []).

Definition handle_cover_image (cover_image_url comic_slug : string) : M (option string) :=
  ex <- file_exists comic_slug "cover" ;;
  if ex then ret None
  else
    u <- download_image cover_image_url comic_slug None true 3 ;;
    match u with
    | Some s => if String.eqb s EmptyString then ret None else ret (Some s)
    | None => ret None
    end.

(** A chapter link: its text and its [href] attribute, if any. *)
Record link := mkLink { link_text : string; link_href : option string }.

Record chapter := mkChapter { number : pyfloat; ch_url : string }.

(** [re.search(r'Chapter (\d+(\.\d+)?)', text)]: integer digits and the
    optional fractional digits of group 1. *)
Definition match_chapter_title (s : string) : option (string * option string) :=
  match Str.strip_prefix "Chapter " s with
  | Some rest =>
      let '(d1, r1) := Str.take_digits rest in
      if String.eqb d1 EmptyString then None
      else match r1 with
           | String "."%char r2 =>
               let '(d2, _) := Str.take_digits r2 in
               if String.eqb d2 EmptyString then Some (d1, None)
               else Some (d1, Some d2)
           | _ => Some (d1, None)
           end
  | None => None
  end.

Definition chapter_text (l : link) : string :=
  Str.replace_char (ascii_of_nat 10) " "%char (Str.strip (link_text l)).

(** The loop of [get_chapter_list]; [None] is the KeyError of a matching
    link without [href]. *)
Fixpoint collect_chapters (links : list link) : option (list chapter) :=
  match links with
  | [] => Some []
  | l :: ls =>
      match Str.search match_chapter_title (chapter_text l) with
      | Some (d1, d2) =>
          match link_href l with
          | Some h =>
              match collect_chapters ls with
              | Some chs => Some (mkChapter (float_of_dec d1 d2) h :: chs)
              | None => None
              end
          | None => None
          end
      | None => collect_chapters ls
      end
  end.

(** [sorted(chapters, key=lambda x: x['number'])]: a stable sort on [<]. *)
Fixpoint insert_chapter (x : chapter) (l : list chapter) : list chapter :=
  match l with
  | [] => [x]
  | y :: ys => if lt (number y) (number x) then y :: insert_chapter x ys else x :: l
  end.

Fixpoint sort_chapters (l : list chapter) : list chapter :=
  match l with
  | [] => []
  | x :: xs => insert_chapter x (sort_chapters xs)
  end.

Definition get_chapter_list (links : list link) : list chapter :=
  match collect_chapters links with
  | Some chs => sort_chapters chs
  | None => []
  end.

(** [[ch for ch in chapters if not start_chapter or ch['number'] >= start_chapter]] *)
Definition filter_start (start_chapter : option pyfloat) (chapters : list chapter)
    : list chapter :=
  filter (fun ch => match start_chapter with
                    | None => true
                    | Some s => negb (truthy s) || ge (number ch) s
                    end) chapters.

(** Folder key of the orchestrator's already-downloaded filter. *)
Definition main_folder_key (title : string) (ch : chapter) : string :=
  title ++ "/chapter-" ++ repr (number ch).

(** [[chapter for chapter in chapters_to_scrape if not folder_exists(...)]] *)
Fixpoint filter_not_downloaded (title : string) (chs : list chapter) : M (list chapter) :=
  match chs with
  | [] => ret []
  | ch :: chs' =>
      ex <- folder_exists (main_folder_key title ch) ;;
      rest <- filter_not_downloaded title chs' ;;
      ret (if ex then rest else ch :: rest)
  end.

(** The selection of chapters dispatched by [main]. *)
Definition chapters_to_dispatch (title : string) (start_chapter : option pyfloat)
    (chapters : list chapter) : M (list chapter) :=
  filter_not_downloaded title (filter_start start_chapter chapters).

End Scraper.

(* ------------------------------------------------------------------ *)
(** ** [save_comic_metadata] over the [comics] table (src/models/comic.py) *)

Module Db.

(** Values of the [comic_meta] dict. *)
Inductive pyval := VStr (s : string) | VList (l : list string).

(** [comic_meta]: a dict, as its list of items. *)
Definition meta := list (string * pyval).

(** [d[k]]; [None] is the KeyError. *)
Definition getitem (d : meta) (k : string) : option pyval :=
  match find (fun kv => String.eqb (fst kv) k) d with
  | Some (_, v) => Some v
  | None => None
  end.

(** A row of [comics]. *)
Record comic := mkComic {
  id : nat;
  title : pyval;
  author : pyval;
  type : pyval;
  status : pyval;
  release : pyval;
  updated_on : Z;
  genres : pyval;
  synopsis : pyval;
  rating : pyval;
  cover_image_url : pyval;
  slug : string
}.

(** Autoincrement primary key of the next insert. *)
Definition next_id (db : list comic) : nat :=
  S (fold_right (fun c m => Nat.max (id c) m) O db).

Definition obind {A B} (o : option A) (k : A -> option B) : option B :=
  match o with Some a => k a | None => None end.

(** [Comic(title=comic_meta['title'], ...)], keyword arguments evaluated
    in order; [None] when a key is missing. *)
Definition new_comic (db : list comic) (m : meta) (comic_slug : string) (now : Z)
    : option comic :=
  obind (getitem m "title") (fun t =>
  obind (getitem m "author") (fun a =>
  obind (getitem m "type") (fun ty =>
  obind (getitem m "status") (fun st =>
  obind (getitem m "release") (fun r =>
  obind (getitem m "genres") (fun g =>
  obind (getitem m "synopsis") (fun sy =>
  obind (getitem m "rating") (fun ra =>
  obind (getitem m "cover_image_url") (fun cu =>
  Some (mkComic (next_id db) t a ty st r now g sy ra cu comic_slug)))))))))).

(** [existing_comic.updated_on = datetime.now()] on the row [first()] returns. *)
Fixpoint touch_first (comic_slug : string) (now : Z) (db : list comic) : list comic :=
  match db with
  | [] => []
  | c :: cs =>
      if String.eqb (slug c) comic_slug then
        mkComic (id c) (title c) (author c) (type c) (status c) (release c) now
                (genres c) (synopsis c) (rating c) (cover_image_url c) (slug c) :: cs
      else c :: touch_first comic_slug now cs
  end.

(** The [Enum] columns of [Comic]. *)
Definition comic_type_enum : list string := ["manga"; "manhwa"; "manhua"].
Definition comic_status_enum : list string := ["ongoing"; "completed"].

Definition in_enum (e : list string) (v : pyval) : bool :=
  match v with
  | VStr s => existsb (String.eqb s) e
  | VList _ => false
  end.

(** A database that enforces the [Enum] columns (a PostgreSQL enum type,
    say): [db.commit()] succeeds when every row's [type] and [status] are
    among the declared labels. *)
Definition enum_accepts (db : list comic) : bool :=
  forallb (fun c => in_enum comic_type_enum (type c) && in_enum comic_status_enum (status c)) db.

Section Commit.

(** Whether [db.commit()] succeeds for the table it would commit; the
    database behind [DATABASE_URL] is not part of the repository. *)
Variable commits : list comic -> bool.

(** The table the session would commit; [None] is the KeyError the
    [Comic(...)] call raises. *)
Definition pending (m : meta) (comic_slug : string) (now : Z) (db : list comic)
    : option (list comic) :=
  match find (fun c => String.eqb (slug c) comic_slug) db with
  | None =>
      match new_comic db m comic_slug now with
      | Some c => Some (app db [c])
      | None => None
      end
  | Some _ => Some (touch_first comic_slug now db)
  end.

(** [save_comic_metadata]: the committed table afterwards; an exception
    (the KeyError, or [db.commit()] failing) rolls the session back,
    leaving the table unchanged. *)
Definition save_comic_metadata (m : meta) (comic_slug : string) (now : Z)
    (db : list comic) : list comic :=
  match pending m comic_slug now db with
  | Some db' => if commits db' then db' else db
  | None => db
  end.

End Commit.

End Db.

(* ------------------------------------------------------------------ *)
(** ** The admission gate of [main] / [download_with_progress]

    [semaphore = asyncio.Semaphore(MAX_CONCURRENT_DOWNLOADS)]; every task
    runs [async with semaphore: await scrape_chapter_images(...)].  A task
    is pending until it takes a slot, then performs the network effects of
    its pipeline one at a time, and leaves the [async with] block (on
    completion, or early on an exception) giving its slot back.  Tasks
    interleave arbitrarily at their suspension points. *)

Module Gate.
Import Effects.

Inductive task :=
| Pending (prog : list event)
| Holding (prog : list event)
| Finished.

Record sched := mkSched { sem_value : nat; tasks : list task }.

Inductive label :=
| LAcquire (i : nat)
| LNet (i : nat) (ev : event)
| LRelease (i : nat).

Fixpoint set_nth {A} (i : nat) (x : A) (l : list A) : list A :=
  match l, i with
  | [], _ => []
  | _ :: ys, O => x :: ys
  | y :: ys, S j => y :: set_nth j x ys
  end.

Inductive step : sched -> label -> sched -> Prop :=
| step_acquire s i p :
    nth_error (tasks s) i = Some (Pending p) ->
    (0 < sem_value s)%nat ->
    step s (LAcquire i) (mkSched (pred (sem_value s)) (set_nth i (Holding p) (tasks s)))
| step_net s i ev p :
    nth_error (tasks s) i = Some (Holding (ev :: p)) ->
    step s (LNet i ev) (mkSched (sem_value s) (set_nth i (Holding p) (tasks s)))
| step_release s i p :
    nth_error (tasks s) i = Some (Holding p) ->
    step s (LRelease i) (mkSched (S (sem_value s)) (set_nth i Finished (tasks s))).

Inductive reachable (s0 : sched) : sched -> Prop :=
| reach_refl : reachable s0 s0
| reach_step s l s' : reachable s0 s -> step s l s' -> reachable s0 s'.

(** All chapters submitted at once to a fresh semaphore. *)
Definition init (progs : list (list event)) : sched :=
  mkSched Scraper.MAX_CONCURRENT_DOWNLOADS (map Pending progs).

Definition is_holding (t : task) : bool :=
  match t with Holding _ => true | _ => false end.

(** Pipelines in flight. *)
Definition in_flight (s : sched) : nat := List.length (filter is_holding (tasks s)).

End Gate.

(* ------------------------------------------------------------------ *)
(** ** The comic page: [sanitize_filename], [safe_select],
    [extract_comic_meta] and [scrape_comic_meta] *)

Module Meta.
Import Effects Scraper.

(** The characters of the class in [sanitize_filename]'s [re.sub]: less
    than, greater than, colon, double quote, slash, backslash, bar,
    question mark and star. *)
Definition forbidden_chars : list ascii :=
  ["<"; ">"; ":"; ascii_of_nat 34; "/"; ascii_of_nat 92; "|"; "?"; "*"]%char.

Definition is_forbidden (c : ascii) : bool := existsb (Ascii.eqb c) forbidden_chars.

(** [re.sub] of that class by the empty string. *)
Fixpoint remove_forbidden (s : string) : string :=
  match s with
  | EmptyString => EmptyString
  | String c s' => if is_forbidden c then remove_forbidden s' else String c (remove_forbidden s')
  end.

(** [str.lower()] on ASCII text. *)
Definition lower_char (c : ascii) : ascii :=
  let n := nat_of_ascii c in
  if (65 <=? n)%nat && (n <=? 90)%nat then ascii_of_nat (n + 32) else c.

Fixpoint lower (s : string) : string :=
  match s with
  | EmptyString => EmptyString
  | String c s' => String (lower_char c) (lower s')
  end.

(** [s.replace(old, new)] for a non-empty [old]: every non-overlapping
    occurrence, scanning from the left. *)
Fixpoint replace_aux (fuel : nat) (old new s : string) : string :=
  match fuel with
  | O => s
  | S f =>
      match s with
      | EmptyString => EmptyString
      | String c s' =>
          match Str.strip_prefix old s with
          | Some rest => new ++ replace_aux f old new rest
          | None => String c (replace_aux f old new s')
          end
      end
  end.

Definition replace (old new s : string) : string :=
  replace_aux (S (String.length s)) old new s.

(** Maximal whitespace prefix ([\s] on ASCII) and the rest. *)
Fixpoint span_space (s : string) : string * string :=
  match s with
  | String c s' =>
      if Str.is_space c then let '(w, r) := span_space s' in (String c w, r)
      else (EmptyString, s)
  | EmptyString => (EmptyString, EmptyString)
  end.

Definition newline : string := String (ascii_of_nat 10) EmptyString.

(** [\s+Bahasa Indonesia$] with [re.IGNORECASE], tried at the start of
    [s]: [\s+] must take the whole whitespace run (a 'B' follows it), and
    [$] holds at the end of the string or before a final newline, which
    the match leaves in place.  Returns what follows the match. *)
Definition bahasa_at (s : string) : option string :=
  let '(ws, rest) := span_space s in
  if String.eqb ws EmptyString then None
  else if String.eqb (lower rest) "bahasa indonesia" then Some EmptyString
  else if String.eqb (lower rest) ("bahasa indonesia" ++ newline) then Some newline
  else None.

(** [re.sub(r'\s+Bahasa Indonesia$', '', s, flags=re.IGNORECASE)]; a match
    runs to the end of the string, so there is at most one. *)
Fixpoint sub_bahasa (s : string) : string :=
  match bahasa_at s with
  | Some tail => tail
  | None =>
      match s with
      | EmptyString => EmptyString
      | String c s' => String c (sub_bahasa s')
      end
  end.

(** What the selectors of [extract_comic_meta] and [scrape_comic_meta]
    find on a comic page: the [.text] of each [select_one] ([None] when
    nothing is selected), the texts of the genre anchors, the thumbnail
    [img] ([None] when absent) with its [src] attribute ([None] when
    missing), and the chapter links [get_chapter_list] selects. *)
Record comic_page := mkPage {
  pg_title : option string;      (* .komik_info-content-body-title *)
  pg_author : option string;     (* .komik_info-content-info:contains("Author:") *)
  pg_type : option string;       (* .komik_info-content-info-type a *)
  pg_status : option string;     (* .komik_info-content-info:contains("Status:") *)
  pg_release : option string;    (* .komik_info-content-info-release *)
  pg_genres : list string;       (* .komik_info-content-genre a *)
  pg_synopsis : option string;   (* .komik_info-description-sinopsis *)
  pg_rating : option string;     (* .komik_info-content-rating strong:contains("Rating") *)
  pg_thumb : option (option string); (* .komik_info-content-thumbnail img, its src *)
  pg_chapter_links : list Scraper.link
}.

(** [safe_select]: the selectors are constants, so [select_one] does not
    raise and the [except] branch is not reached. *)
Definition safe_select (element : option string) (default : string) : string :=
  match element with
  | Some text => Str.strip text
  | None => default
  end.

(** [comic_meta[k] = v]: replaces the value of a present key in place,
    appends a new key. *)
Fixpoint setitem (d : Db.meta) (k : string) (v : Db.pyval) : Db.meta :=
  match d with
  | [] => [(k, v)]
  | (k', v') :: d' =>
      if String.eqb k' k then (k', v) :: d' else (k', v') :: setitem d' k v
  end.

Section Page.

(** [unicodedata.normalize('NFKD', .)] *)
Variable nfkd : string -> string.

Definition sanitize_filename (filename : string) : string :=
  Str.strip (nfkd (remove_forbidden filename)).

(** [extract_comic_meta]; none of its steps raises on strings, so its
    [except] branch (returning [{}]) is not reached. *)
Definition extract_comic_meta (pg : comic_page) : Db.meta :=
  [("title", Db.VStr (sub_bahasa (sanitize_filename (safe_select (pg_title pg) "N/A"))));
   ("author", Db.VStr (Str.strip (replace "Author:" "" (safe_select (pg_author pg) "N/A"))));
   ("type", Db.VStr (lower (safe_select (pg_type pg) "N/A")));
   ("status", Db.VStr (lower (Str.strip (replace "Status:" ""
                                          (safe_select (pg_status pg) "N/A")))));
   ("release", Db.VStr (Str.strip (replace "Released:" ""
                                     (safe_select (pg_release pg) "N/A"))));
   ("genres", Db.VList (map Str.strip (pg_genres pg)));
   ("synopsis", Db.VStr (safe_select (pg_synopsis pg) "N/A"));
   ("rating", Db.VStr (Str.strip (replace "Rating " "" (safe_select (pg_rating pg) "N/A"))))].

(** BeautifulSoup's view of a fetched page. *)
Variable parse : body -> comic_page.

(** [scrape_comic_meta(session, url, title)]; a missing thumbnail
    ([None['src']], a TypeError) or a missing [src] (a KeyError) is caught
    by the [except Exception] like any other error. *)
Definition scrape_comic_meta (url title : string) : M (option Db.meta) :=
  try_except
    (data <- fetch_data url ;;
     let soup := parse data in
     let comic_meta := extract_comic_meta soup in
     match pg_thumb soup with
     | Some (Some cover_image_url) =>
         cover_cloudinary_url <- handle_cover_image cover_image_url title ;;
         let comic_meta :=
           match cover_cloudinary_url with
           | Some u => setitem comic_meta "cover_image_url" (Db.VStr u)
           | None => comic_meta
           end in
         ret (Some (setitem comic_meta "slug" (Db.VStr title)))
     | _ => raise ExnKey
     end)
    (fun _ => ret None).

End Page.

End Meta.

(* ------------------------------------------------------------------ *)
(** ** [main], up to the [asyncio.gather] of the chapter tasks

    [main] reads and writes two stores: the world of the coroutines and
    the [comics] table. *)

Module Main.
Import Effects PyFloat Scraper Meta.

Record St := mkSt { st_world : World; st_db : list Db.comic }.

Definition MM (A : Type) := St -> result A * St.

Definition mret {A} (a : A) : MM A := fun st => (Ok a, st).
Definition mraise {A} (e : exn) : MM A := fun st => (Raise e, st).
Definition mbind {A B} (m : MM A) (k : A -> MM B) : MM B :=
  fun st => match m st with
            | (Ok a, st') => k a st'
            | (Raise e, st') => (Raise e, st')
            end.

Notation "x <-- m ;; k" := (mbind m (fun x => k))
  (at level 61, m at next level, right associativity).

(** A computation on the world alone. *)
Definition lift {A} (m : M A) : MM A :=
  fun st => let '(r, w') := m (st_world st) in (r, mkSt w' (st_db st)).

Definition mtry {A} (m : MM A) (h : exn -> MM A) : MM A :=
  fun st => match m st with
            | (Raise e, st') => h e st'
            | r => r
            end.

(** [save_comic_metadata(comic_meta, comic_slug)] at time [now], against
    a database whose commits succeed as [commits] says. *)
Definition save_meta (commits : list Db.comic -> bool) (comic_meta : Db.meta)
    (comic_slug : string) (now : Z) : MM unit :=
  fun st => (Ok tt, mkSt (st_world st)
                         (Db.save_comic_metadata commits comic_meta comic_slug now (st_db st))).

Section Run.

Variable nfkd : string -> string.
Variable parse : body -> comic_page.
(** [urllib.parse.urljoin] *)
Variable urljoin : string -> string -> string.
(** [float(s)]; [None] is the ValueError. *)
Variable py_float : string -> option pyfloat.
(** Whether the database commits a table (see [Db.save_comic_metadata]). *)
Variable commits : list Db.comic -> bool.

(** [main(title, base_url)], with [user_input] the line [input()] reads
    and [now] the time [datetime.now()] gives: the URLs of the
    [download_with_progress] tasks it hands to [asyncio.gather] (the
    admission gate runs them, see [Gate]).  The prints and the logging do
    not fail and are left out.  [fetch_data_with_retry] with
    [MAX_RETRIES] = 3 returns a page or raises, so the [None] branch is
    not reached. *)
Definition main (title base_url user_input : string) (now : Z) : MM (list string) :=
  let comic_url := urljoin base_url ("komik/" ++ title ++ "/") in
  mtry
    (data <-- lift (fetch_data_with_retry comic_url MAX_RETRIES) ;;
     match data with
     | None => mraise ExnValue
     | Some data =>
         let soup := parse data in
         comic_meta <-- lift (scrape_comic_meta nfkd parse comic_url title) ;;
         match comic_meta with
         | None | Some [] => mret []
         | Some comic_meta =>
             match get_chapter_list (pg_chapter_links soup) with
             | [] => mret []
             | chapters =>
                 let u := Str.strip user_input in
                 start_chapter <--
                   (if String.eqb u EmptyString then mret None
                    else match py_float u with
                         | Some f => mret (Some f)
                         | None => mraise ExnValue
                         end) ;;
                 _ <-- save_meta commits comic_meta title now ;;
                 chapters_to_scrape <-- lift (chapters_to_dispatch title start_chapter chapters) ;;
                 mret (map ch_url chapters_to_scrape)
             end
         end
     end)
    (fun _ => mret []).

End Run.

End Main.


(* ================================================================== *)
(** * Properties *)

Module Props.
Import Effects PyFloat Scraper.

Definition is_get (ev : event) : bool :=
  match ev with EvGet _ => true | _ => false end.

Definition is_upload (ev : event) : bool :=
  match ev with EvUpload _ _ => true | _ => false end.

Definition count_gets (l : list event) : nat := List.length (filter is_get l).
Definition count_uploads (l : list event) : nat := List.length (filter is_upload l).

(** A network answer the fetchers treat as an error. *)
Definition is_failure (r : http_resp) : Prop :=
  match r with HttpOk _ => False | _ => True end.

(** The exception raised for a failed answer. *)
Definition failure_exn (r : http_resp) : exn :=
  match r with
  | HttpStatus code _ => ExnHttp code
  | _ => ExnConn
  end.

(** The world after some effects: same store, given network answers,
    uploads and extra log entries. *)
Definition after (w : World) (http : list http_resp) (new : list event) : World :=
  mkWorld (w_assets w) (w_api_up w) http (w_upload w) (app (w_log w) new).

Ltac norm_log := repeat rewrite <- app_assoc; simpl.

Lemma count_gets_app l1 l2 : count_gets (l1 ++ l2) = (count_gets l1 + count_gets l2)%nat.
Proof. unfold count_gets. now rewrite filter_app, length_app. Qed.

Lemma count_uploads_app l1 l2 :
  count_uploads (l1 ++ l2) = (count_uploads l1 + count_uploads l2)%nat.
Proof. unfold count_uploads. now rewrite filter_app, length_app. Qed.

(** The fetch loop only appends to the log, and at most one GET per
    remaining iteration. *)
Lemma fetch_retry_loop_gets url attempt n w :
  exists new, w_log (snd (fetch_retry_loop url attempt n w)) = app (w_log w) new
              /\ (count_gets new <= n)%nat.
Proof.
  revert attempt w; induction n as [|n IH]; intros attempt [a up http up' log].
  - exists []. simpl. now rewrite app_nil_r.
  - simpl. unfold bind, http_get. simpl.
    destruct (match http with [] => (HttpConnErr, []) | r :: rest => (r, rest) end)
      as [resp rest] eqn:E.
    assert (Hone : forall l, count_gets (app (app log [EvGet url]) l)
                             = (count_gets log + S (count_gets l))%nat).
    { intro l. rewrite <- app_assoc, count_gets_app. reflexivity. }
    destruct resp as [b|code h|]; simpl.
    + exists [EvGet url]. split; [reflexivity|]. cbn; lia.
    + destruct (Nat.eqb n 0) eqn:En.
      * exists [EvGet url]. split; [reflexivity|]. cbn; lia.
      * unfold sleep, emit. simpl.
        destruct (IH (S attempt)
                   (mkWorld a up rest up' (app (app log [EvGet url])
                                           [EvSleep (RETRY_DELAY * 2 ^ Z.of_nat attempt)])))
          as [new [Hn Hc]].
        simpl in Hn. rewrite Hn.
        exists ([EvGet url; EvSleep (RETRY_DELAY * 2 ^ Z.of_nat attempt)] ++ new)%list.
        split; [norm_log; reflexivity|]. unfold count_gets in *; simpl; lia.
    + destruct (Nat.eqb n 0) eqn:En.
      * exists [EvGet url]. split; [reflexivity|]. cbn; lia.
      * unfold sleep, emit. simpl.
        destruct (IH (S attempt)
                   (mkWorld a up rest up' (app (app log [EvGet url])
                                           [EvSleep (RETRY_DELAY * 2 ^ Z.of_nat attempt)])))
          as [new [Hn Hc]].
        simpl in Hn. rewrite Hn.
        exists ([EvGet url; EvSleep (RETRY_DELAY * 2 ^ Z.of_nat attempt)] ++ new)%list.
        split; [norm_log; reflexivity|]. unfold count_gets in *; simpl; lia.
Qed.

Ltac run_m :=
  unfold bind, http_get, sleep, emit, ret, raise, after,
    resources_nonempty, folder_exists, file_exists, upload_image in *; simpl in *.

Ltac failure_cases e :=
  destruct e as [?|? ?|]; [contradiction| |].

(** C4: [fetch_data_with_retry] makes at most [MAX_RETRIES] = 3 attempts,
    sleeping [RETRY_DELAY * 2 ^ attempt] seconds between two attempts: two
    failures then a success return that success after sleeping
    [RETRY_DELAY * 2^0] then [RETRY_DELAY * 2^1]; a third failure is
    raised to the caller; no run issues more than 3 GETs. *)
Theorem fetch_data_with_retry_attempts :
  (forall url w e1 e2 b rest,
      is_failure e1 -> is_failure e2 ->
      w_http w = e1 :: e2 :: HttpOk b :: rest ->
      fetch_data_with_retry url MAX_RETRIES w =
        (Ok (Some b),
         after w rest [EvGet url; EvSleep (RETRY_DELAY * 2 ^ 0); EvGet url;
                       EvSleep (RETRY_DELAY * 2 ^ 1); EvGet url])) /\
  (forall url w e1 e2 e3 rest,
      is_failure e1 -> is_failure e2 -> is_failure e3 ->
      w_http w = e1 :: e2 :: e3 :: rest ->
      fetch_data_with_retry url MAX_RETRIES w =
        (Raise (failure_exn e3),
         after w rest [EvGet url; EvSleep (RETRY_DELAY * 2 ^ 0); EvGet url;
                       EvSleep (RETRY_DELAY * 2 ^ 1); EvGet url])) /\
  (forall url w,
      exists new, w_log (snd (fetch_data_with_retry url MAX_RETRIES w)) = app (w_log w) new
                  /\ (count_gets new <= 3)%nat).
Proof.
  split; [|split].
  - intros url [a up http up' log] e1 e2 b rest H1 H2 Hw. simpl in Hw. subst http.
    failure_cases e1; failure_cases e2;
      unfold fetch_data_with_retry; simpl; run_m; norm_log; reflexivity.
  - intros url [a up http up' log] e1 e2 e3 rest H1 H2 H3 Hw. simpl in Hw. subst http.
    failure_cases e1; failure_cases e2; failure_cases e3;
      unfold fetch_data_with_retry; simpl; run_m; norm_log; reflexivity.
  - intros url w. apply fetch_retry_loop_gets.
Qed.

(** C1: when the chapter's folder check reports content, the pipeline
    returns [[]] right after that check: no GET (chapter page or image),
    no sleep, no upload; the network answers and upload outcomes are left
    untouched. *)
Theorem scrape_chapter_images_skip_before_fetch url comic_slug chapter_num w :
  chapter_num_of_url url = Some chapter_num ->
  fst (folder_exists (chapter_folder comic_slug chapter_num) w) = Ok true ->
  scrape_chapter_images url comic_slug w =
    (Ok [], after w (w_http w) [EvResources (chapter_folder comic_slug chapter_num)]).
Proof.
  intros Hn Hex. destruct w as [a up http up' log].
  unfold scrape_chapter_images, try_except. rewrite Hn.
  run_m. injection Hex as Hex. rewrite Hex. reflexivity.
Qed.

(** C3 (counterexample): the chapter page is fetched with [fetch_data],
    once: a transport failure on it ends the chapter at once, with no
    back-off and no second attempt, although the next answer of the
    network would have succeeded. *)
Lemma scrape_chapter_page_not_retried :
  scrape_chapter_images "https://komikcast.cz/chapter/alpha-chapter-2/" "alpha"
    (mkWorld [] true [HttpConnErr; HttpOk (mkBody ["https://img/001.jpg"])]
             [Some "https://res/alpha/chapter-2/001"] []) =
  (Ok [],
   mkWorld [] true [HttpOk (mkBody ["https://img/001.jpg"])]
           [Some "https://res/alpha/chapter-2/001"]
           [EvResources "alpha/chapter-2";
            EvGet "https://komikcast.cz/chapter/alpha-chapter-2/"]).
Proof. vm_compute. reflexivity. Qed.

(** C3 (amended): the chapter page is requested exactly once; if that
    request fails (transport error or error status) the pipeline returns
    [[]] with no retry, no sleep and no image download. *)
Theorem scrape_chapter_page_single_attempt url comic_slug chapter_num w e rest :
  chapter_num_of_url url = Some chapter_num ->
  fst (folder_exists (chapter_folder comic_slug chapter_num) w) = Ok false ->
  w_http w = e :: rest -> is_failure e ->
  scrape_chapter_images url comic_slug w =
    (Ok [], after w rest [EvResources (chapter_folder comic_slug chapter_num); EvGet url]).
Proof.
  intros Hn Hex Hw He. destruct w as [a up http up' log]. simpl in Hw. subst http.
  unfold scrape_chapter_images, try_except. rewrite Hn.
  run_m. injection Hex as Hex. rewrite Hex.
  unfold fetch_data. run_m.
  failure_cases e; simpl; norm_log; reflexivity.
Qed.



(** ** Counting uploads compositionally *)

(** [m] only appends to the log, and at most [k] uploads. *)
Definition uploads_le {A} (k : nat) (m : M A) : Prop :=
  forall w, exists new, w_log (snd (m w)) = app (w_log w) new
                        /\ (count_uploads new <= k)%nat.

Lemma uploads_le_ret {A} (a : A) : uploads_le 0 (ret a).
Proof. intro w. exists []. rewrite app_nil_r. split; [reflexivity|cbn; lia]. Qed.

Lemma uploads_le_raise {A} e : uploads_le 0 (@raise A e).
Proof. intro w. exists []. rewrite app_nil_r. split; [reflexivity|cbn; lia]. Qed.

Lemma uploads_le_mono {A} k k' (m : M A) :
  (k <= k')%nat -> uploads_le k m -> uploads_le k' m.
Proof. intros Hk H w. destruct (H w) as [new [? ?]]. exists new. split; [assumption|lia]. Qed.

Lemma uploads_le_bind {A B} k1 k2 (m : M A) (f : A -> M B) :
  uploads_le k1 m -> (forall a, uploads_le k2 (f a)) ->
  uploads_le (k1 + k2) (bind m f).
Proof.
  intros Hm Hf w. unfold bind.
  destruct (Hm w) as [n1 [E1 C1]].
  destruct (m w) as [[a|e] w1]; simpl in E1.
  - destruct (Hf a w1) as [n2 [E2 C2]]. exists (n1 ++ n2)%list.
    rewrite E2, E1, app_assoc. split; [reflexivity|].
    rewrite count_uploads_app. lia.
  - exists n1. split; [assumption|lia].
Qed.

Lemma uploads_le_emit ev : is_upload ev = false -> uploads_le 0 (emit ev).
Proof.
  intros Hev w. exists [ev]. split; [reflexivity|].
  unfold count_uploads. simpl. rewrite Hev. simpl. lia.
Qed.

Lemma uploads_le_http_get url : uploads_le 0 (http_get url).
Proof.
  intros [a up http up' log]. exists [EvGet url].
  unfold http_get. destruct http; simpl; split; try reflexivity; cbn; lia.
Qed.

Lemma uploads_le_resources p : uploads_le 0 (resources_nonempty p).
Proof.
  intros w. exists [EvResources p]. split; [reflexivity|cbn; lia].
Qed.

Lemma uploads_le_upload_image folder filename : uploads_le 1 (upload_image folder filename).
Proof.
  intros [a up http up' log]. exists [EvUpload folder filename].
  unfold upload_image. destruct up' as [|[u|] rest]; simpl; split; try reflexivity; cbn; lia.
Qed.

Lemma uploads_le_download_loop url slug chapter is_cover attempt n :
  uploads_le 1 (download_loop url slug chapter is_cover attempt n).
Proof.
  revert attempt; induction n as [|r IH]; intro attempt; simpl.
  - apply (uploads_le_mono 0); [lia|apply uploads_le_ret].
  - apply (uploads_le_bind 0 1); [apply uploads_le_http_get|]. intros [b|code h|].
    + destruct (upload_target url slug chapter is_cover) as [[folder filename]|].
      * apply (uploads_le_mono (1 + 0)); [lia|].
        apply uploads_le_bind; [apply uploads_le_upload_image|intro; apply uploads_le_ret].
      * apply (uploads_le_mono 0); [lia|apply uploads_le_raise].
    + destruct (code =? 429).
      * destruct (retry_after_secs h).
        -- apply (uploads_le_bind 0 1); [apply uploads_le_emit; reflexivity|intro; apply IH].
        -- apply (uploads_le_mono 0); [lia|apply uploads_le_raise].
      * destruct (Nat.eqb r 0).
        -- apply (uploads_le_mono 0); [lia|apply uploads_le_raise].
        -- apply (uploads_le_bind 0 1); [apply uploads_le_emit; reflexivity|intro; apply IH].
    + destruct (Nat.eqb r 0).
      * apply (uploads_le_mono 0); [lia|apply uploads_le_raise].
      * apply (uploads_le_bind 0 1); [apply uploads_le_emit; reflexivity|intro; apply IH].
Qed.

Lemma uploads_le_download_image url slug chapter is_cover retries :
  uploads_le 1 (download_image url slug chapter is_cover retries).
Proof.
  apply (uploads_le_bind 0 1); [apply uploads_le_emit; reflexivity|].
  intro. apply uploads_le_download_loop.
Qed.

Lemma uploads_le_handle_cover_image cover_image_url comic_slug :
  uploads_le 1 (handle_cover_image cover_image_url comic_slug).
Proof.
  apply (uploads_le_bind 0 1); [apply uploads_le_resources|]. intros [|].
  - apply (uploads_le_mono 0); [lia|apply uploads_le_ret].
  - apply (uploads_le_mono (1 + 0)); [lia|].
    apply uploads_le_bind; [apply uploads_le_download_image|].
    intros [u|]; [destruct (String.eqb u EmptyString)|]; apply uploads_le_ret.
Qed.

(** C8: if the first [handle_cover_image] leaves the store so that the
    check for ["slug/cover"] reports present, the second call for the same
    slug only performs that check and returns [None]; the two calls
    together upload at most once. *)
Theorem handle_cover_image_idempotent cover1 cover2 comic_slug w0 r1 w1 r2 w2 :
  handle_cover_image cover1 comic_slug w0 = (r1, w1) ->
  fst (file_exists comic_slug "cover" w1) = Ok true ->
  handle_cover_image cover2 comic_slug w1 = (r2, w2) ->
  r2 = Ok None
  /\ w2 = after w1 (w_http w1) [EvResources (comic_slug ++ "/cover")]
  /\ (count_uploads (w_log w2) <= count_uploads (w_log w0) + 1)%nat.
Proof.
  intros H1 Hex H2.
  destruct (uploads_le_handle_cover_image cover1 comic_slug w0) as [n1 [E1 C1]].
  rewrite H1 in E1. simpl in E1.
  destruct w1 as [a up http up' log]. simpl in E1. subst log.
  unfold handle_cover_image in H2. run_m. injection Hex as Hex. rewrite Hex in H2.
  injection H2 as <- <-. split; [reflexivity|]. split; [reflexivity|].
  simpl. rewrite !count_uploads_app. cbn. lia.
Qed.

(** ** Folder keys *)

Lemma all_digits_app s1 s2 :
  Str.all_digits (s1 ++ s2) = Str.all_digits s1 && Str.all_digits s2.
Proof.
  induction s1 as [|c s1 IH]; simpl; [reflexivity|]. now rewrite IH, andb_assoc.
Qed.

Lemma append_cancel_l p s1 s2 : (p ++ s1 = p ++ s2)%string -> s1 = s2.
Proof. induction p as [|c p IH]; simpl; [auto|]. intro H. injection H. auto. Qed.

Lemma take_digits_all s : Str.all_digits (fst (Str.take_digits s)) = true.
Proof.
  induction s as [|c s IH]; simpl; [reflexivity|].
  destruct (Str.is_digit c) eqn:Hc; [|reflexivity].
  destruct (Str.take_digits s) as [d r]. simpl in *. now rewrite Hc, IH.
Qed.

Lemma search_sound {A} (m : string -> option A) s r :
  Str.search m s = Some r -> exists s', m s' = Some r.
Proof.
  induction s as [|c s IH]; simpl; destruct (m _) eqn:E; intro H.
  - injection H as <-. eauto.
  - discriminate.
  - injection H as <-. eauto.
  - auto.
Qed.

Lemma chapter_num_digits url n :
  chapter_num_of_url url = Some n -> Str.all_digits n = true.
Proof.
  intro H. destruct (search_sound _ _ _ H) as [s Hs]. unfold match_chapter_num in Hs.
  destruct (Str.strip_prefix "chapter-" s) as [rest|]; [|discriminate].
  pose proof (take_digits_all rest) as Hd.
  destruct (Str.take_digits rest) as [d r]. simpl in Hd.
  destruct (String.eqb d EmptyString); [discriminate|]. now injection Hs as <-.
Qed.

Lemma exp_suffix_not_all_digits x : Str.all_digits (exp_suffix x) = false.
Proof. unfold exp_suffix. rewrite all_digits_app. reflexivity. Qed.

Ltac digits_false :=
  repeat (rewrite all_digits_app || rewrite exp_suffix_not_all_digits);
  simpl; rewrite ?andb_false_r, ?andb_false_l; reflexivity.

Lemma format_r_not_all_digits ds decpt : Str.all_digits (format_r ds decpt) = false.
Proof.
  unfold format_r.
  destruct ((decpt <=? -4) || (16 <? decpt)).
  - destruct ds as [|d rest]; [apply exp_suffix_not_all_digits|].
    destruct rest; digits_false.
  - destruct (decpt <=? 0); [digits_false|].
    destruct (decpt <=? _); [|digits_false].
    destruct (decpt =? _); digits_false.
Qed.

(** Every [repr] of a float has a non-digit character. *)
Lemma repr_not_all_digits x : Str.all_digits (repr x) = false.
Proof.
  destruct x as [neg m e|neg|]; simpl.
  - destruct (m =? 0).
    + destruct neg; digits_false.
    + destruct (shortest _ m e) as [ds decpt].
      rewrite all_digits_app, format_r_not_all_digits, andb_false_r. reflexivity.
  - destruct neg; reflexivity.
  - reflexivity.
Qed.

(** C6: for a chapter whose url carries [chapter-N], the key the
    orchestrator checks, [slug/chapter-] followed by [repr] of the chapter
    number (["alpha/chapter-2.0"] for 2.0), never equals the folder the
    pipeline checks and uploads into, [slug/chapter-N]: [repr] of a float
    always has a non-digit character (["."], ["e"], ["inf"], ...), [N] has
    none.  This holds whatever the number, in particular for N.0. *)
Theorem orchestrator_key_differs_from_pipeline_key comic_slug url chapter_num ch :
  chapter_num_of_url url = Some chapter_num ->
  main_folder_key comic_slug ch <> chapter_folder comic_slug chapter_num.
Proof.
  intros Hn Heq. unfold main_folder_key, chapter_folder in Heq.
  apply append_cancel_l, append_cancel_l in Heq.
  pose proof (repr_not_all_digits (number ch)) as Hr.
  rewrite Heq, (chapter_num_digits _ _ Hn) in Hr. discriminate.
Qed.

(** ** Metadata upsert *)

Section Upsert.
Import Db.

Lemma find_first_slug comic_slug pre c post :
  Forall (fun c' => slug c' <> comic_slug) pre -> slug c = comic_slug ->
  find (fun c' => String.eqb (slug c') comic_slug) (app pre (c :: post)) = Some c.
Proof.
  intros Hpre Hc. induction Hpre as [|c' pre Hc' _ IH]; simpl.
  - now rewrite Hc, String.eqb_refl.
  - apply String.eqb_neq in Hc'. now rewrite Hc'.
Qed.

Lemma touch_first_split comic_slug now pre c post :
  Forall (fun c' => slug c' <> comic_slug) pre -> slug c = comic_slug ->
  touch_first comic_slug now (app pre (c :: post)) =
    app pre (mkComic (id c) (title c) (author c) (type c) (status c) (release c) now
                     (genres c) (synopsis c) (rating c) (cover_image_url c) (slug c)
             :: post).
Proof.
  intros Hpre Hc. induction Hpre as [|c' pre Hc' _ IH]; simpl.
  - now rewrite Hc, String.eqb_refl.
  - apply String.eqb_neq in Hc'. now rewrite Hc', IH.
Qed.

(** C7 (amended): upsert by slug, through a commit that may fail.  With
    no row for the slug and every field present in [comic_meta], the
    session would append one row holding exactly the supplied fields,
    [updated_on = now] and the slug: the table becomes that when the
    database commits it, and stays as it was otherwise (rollback); with a
    field missing the table is unchanged.  When a row for the slug exists
    (the first one, [pre] has none) the session changes only that row's
    [updated_on], whatever [comic_meta] holds, and again the table is
    that or, if the commit fails, unchanged. *)
Theorem save_comic_metadata_upsert :
  (forall commits m comic_slug now db t a ty st r g sy ra cu,
      find (fun c => String.eqb (slug c) comic_slug) db = None ->
      getitem m "title" = Some t -> getitem m "author" = Some a ->
      getitem m "type" = Some ty -> getitem m "status" = Some st ->
      getitem m "release" = Some r -> getitem m "genres" = Some g ->
      getitem m "synopsis" = Some sy -> getitem m "rating" = Some ra ->
      getitem m "cover_image_url" = Some cu ->
      save_comic_metadata commits m comic_slug now db =
        if commits (app db [mkComic (next_id db) t a ty st r now g sy ra cu comic_slug])
        then app db [mkComic (next_id db) t a ty st r now g sy ra cu comic_slug]
        else db) /\
  (forall commits m comic_slug now db,
      find (fun c => String.eqb (slug c) comic_slug) db = None ->
      new_comic db m comic_slug now = None ->
      save_comic_metadata commits m comic_slug now db = db) /\
  (forall commits m comic_slug now pre c post,
      Forall (fun c' => slug c' <> comic_slug) pre -> slug c = comic_slug ->
      save_comic_metadata commits m comic_slug now (app pre (c :: post)) =
        if commits (app pre (mkComic (id c) (title c) (author c) (type c) (status c)
                                     (release c) now (genres c) (synopsis c) (rating c)
                                     (cover_image_url c) (slug c) :: post))
        then app pre (mkComic (id c) (title c) (author c) (type c) (status c) (release c) now
                              (genres c) (synopsis c) (rating c) (cover_image_url c) (slug c)
                      :: post)
        else app pre (c :: post)).
Proof.
  split; [|split].
  - intros commits m comic_slug now db t a ty st r g sy ra cu Hnone Ht Ha Hty Hst Hr Hg Hsy
      Hra Hcu.
    unfold save_comic_metadata, pending. rewrite Hnone. unfold new_comic.
    rewrite Ht, Ha, Hty, Hst, Hr, Hg, Hsy, Hra, Hcu. reflexivity.
  - intros commits m comic_slug now db Hnone Hn.
    unfold save_comic_metadata, pending. rewrite Hnone, Hn. reflexivity.
  - intros commits m comic_slug now pre c post Hpre Hc.
    unfold save_comic_metadata, pending. rewrite (find_first_slug _ _ _ _ Hpre Hc).
    rewrite touch_first_split by assumption. reflexivity.
Qed.

End Upsert.

(** ** The admission gate *)

Section GateInvariant.
Import Gate.

Definition holding_count (l : list task) : nat := List.length (filter is_holding l).

Definition holding_bit (t : task) : nat := if is_holding t then 1 else 0.

Lemma holding_count_set_nth l i old t :
  nth_error l i = Some old ->
  (holding_count (set_nth i t l) + holding_bit old = holding_count l + holding_bit t)%nat.
Proof.
  unfold holding_count, holding_bit.
  revert i; induction l as [|x l IH]; intros [|i] H; simpl in *; try discriminate.
  - injection H as ->. destruct (is_holding old), (is_holding t); simpl; lia.
  - specialize (IH i H). destruct (is_holding x); simpl; lia.
Qed.

Lemma holding_count_pending progs : holding_count (map Pending progs) = O.
Proof. induction progs; simpl; auto. Qed.

(** Free slots plus pipelines in flight is the gate's capacity. *)
Lemma gate_conservation progs s :
  reachable (init progs) s ->
  (sem_value s + in_flight s = Scraper.MAX_CONCURRENT_DOWNLOADS)%nat.
Proof.
  unfold in_flight. fold (holding_count (tasks s)).
  induction 1 as [|s l s' _ IH Hstep].
  - simpl. rewrite holding_count_pending. reflexivity.
  - fold (holding_count (tasks s)) in IH.
    inversion Hstep as [? i p Hi Hpos| ? i ev p Hi | ? i p Hi]; subst; simpl.
    + pose proof (holding_count_set_nth _ _ _ (Holding p) Hi) as E.
      unfold holding_bit in E. simpl in E. lia.
    + pose proof (holding_count_set_nth _ _ _ (Holding p) Hi) as E.
      unfold holding_bit in E. simpl in E. lia.
    + pose proof (holding_count_set_nth _ _ _ Finished Hi) as E.
      unfold holding_bit in E. simpl in E. lia.
Qed.

(** C10: whatever the number of chapters and however their steps
    interleave, no more than [MAX_CONCURRENT_DOWNLOADS] = 3 pipelines hold
    a slot at once, and a pipeline performs a network effect only while it
    holds its slot. *)
Theorem gate_bounds_in_flight :
  (forall progs s, reachable (init progs) s ->
     (in_flight s <= Scraper.MAX_CONCURRENT_DOWNLOADS)%nat) /\
  (forall s i ev s', step s (LNet i ev) s' ->
     exists p, nth_error (tasks s) i = Some (Holding (ev :: p))).
Proof.
  split.
  - intros progs s R. pose proof (gate_conservation _ _ R). lia.
  - intros s i ev s' H. inversion H; subst. eauto.
Qed.

End GateInvariant.

(** ** Chapter numbers *)

(** Non-negative and not NaN: what [float()] of a digit string gives. *)
Definition nonneg (x : pyfloat) : Prop :=
  match x with
  | Fin false m _ => 0 <= m
  | Inf false => True
  | _ => False
  end.

Lemma rne_nonneg num den : 0 <= num -> 0 < den -> 0 <= rne num den.
Proof.
  intros Hn Hd. unfold rne.
  assert (0 <= num / den) by (apply Z.div_pos; lia).
  destruct (Z.compare _ _); [destruct (Z.even _)|..]; lia.
Qed.

Lemma round_pos_nonneg p q : 0 <= p -> 0 < q -> nonneg (round_pos p q).
Proof.
  intros Hp Hq. unfold round_pos.
  destruct (p =? 0); [simpl; lia|].
  set (e := Z.max _ (-1074)).
  assert (Hm : 0 <= (if 0 <=? e then rne p (q * 2 ^ e) else rne (p * 2 ^ (- e)) q)).
  { destruct (0 <=? e) eqn:He.
    - apply rne_nonneg; [lia|]. apply Z.leb_le in He.
      apply Z.mul_pos_pos; [lia|apply Z.pow_pos_nonneg; lia].
    - apply rne_nonneg; [|lia]. apply Z.mul_nonneg_nonneg; [lia|].
      apply Z.pow_nonneg; lia. }
  revert Hm. generalize (if 0 <=? e then rne p (q * 2 ^ e) else rne (p * 2 ^ (- e)) q).
  intros m Hm.
  destruct (m =? 2 ^ 53); [destruct (971 <? e + 1)|destruct (971 <? e)]; simpl; lia.
Qed.

Lemma z_of_digits_aux_nonneg acc s :
  0 <= acc -> Str.all_digits s = true -> 0 <= Str.z_of_digits_aux acc s.
Proof.
  revert acc; induction s as [|c s IH]; intros acc Hacc Hs;
    cbn [Str.z_of_digits_aux Str.all_digits] in *; [lia|].
  apply andb_prop in Hs as [Hc Hs]. apply IH; [|assumption].
  unfold Str.is_digit in Hc. apply andb_prop in Hc as [Hc _].
  apply Nat.leb_le in Hc. lia.
Qed.

Lemma float_of_dec_nonneg d1 d2 :
  Str.all_digits d1 = true ->
  (forall f, d2 = Some f -> Str.all_digits f = true) ->
  nonneg (float_of_dec d1 d2).
Proof.
  intros H1 H2. unfold float_of_dec, Str.z_of_digits. destruct d2 as [f|].
  - apply round_pos_nonneg.
    + apply z_of_digits_aux_nonneg; [lia|]. rewrite all_digits_app, H1, (H2 f eq_refl).
      reflexivity.
    + apply Z.pow_pos_nonneg; lia.
  - apply round_pos_nonneg; [apply z_of_digits_aux_nonneg; [lia|assumption]|lia].
Qed.

Lemma match_chapter_title_digits s d1 d2 :
  match_chapter_title s = Some (d1, d2) ->
  Str.all_digits d1 = true /\ (forall f, d2 = Some f -> Str.all_digits f = true).
Proof.
  unfold match_chapter_title. destruct (Str.strip_prefix _ s) as [rest|]; [|discriminate].
  pose proof (take_digits_all rest) as Hd1.
  destruct (Str.take_digits rest) as [x1 r1]. simpl in Hd1.
  destruct (String.eqb x1 EmptyString); [discriminate|].
  assert (Hnone : Some (x1, @None string) = Some (d1, d2) ->
                  Str.all_digits d1 = true /\ (forall f, d2 = Some f -> Str.all_digits f = true)).
  { intro H. injection H as <- <-. split; [assumption|discriminate]. }
  destruct r1 as [|c r2]; [exact Hnone|].
  destruct c as [[] [] [] [] [] [] [] []]; try exact Hnone.
  pose proof (take_digits_all r2) as Hd2.
  destruct (Str.take_digits r2) as [x2 r3]. simpl in Hd2.
  destruct (String.eqb x2 EmptyString); [exact Hnone|].
  intro H. injection H as <- <-. split; [assumption|]. intros f Hf. now injection Hf as <-.
Qed.

(** The chapters a link list yields when every matching link has an
    [href]. *)
Definition matched (links : list link) : list chapter :=
  flat_map (fun l => match Str.search match_chapter_title (chapter_text l), link_href l with
                     | Some (d1, d2), Some h => [mkChapter (float_of_dec d1 d2) h]
                     | _, _ => []
                     end) links.

Lemma collect_chapters_sound links chs :
  collect_chapters links = Some chs ->
  forall ch, In ch chs ->
  exists l d1 d2, In l links
    /\ Str.search match_chapter_title (chapter_text l) = Some (d1, d2)
    /\ link_href l = Some (ch_url ch)
    /\ number ch = float_of_dec d1 d2.
Proof.
  revert chs; induction links as [|l ls IH]; intros chs H ch Hin; simpl in H.
  - injection H as <-. destruct Hin.
  - destruct (Str.search match_chapter_title (chapter_text l)) as [[d1 d2]|] eqn:Hs.
    + destruct (link_href l) as [h|] eqn:Hh; [|discriminate].
      destruct (collect_chapters ls) as [chs'|] eqn:Hc; [|discriminate].
      injection H as <-. destruct Hin as [<-|Hin].
      * exists l, d1, d2. simpl. auto.
      * destruct (IH chs' eq_refl ch Hin) as (l' & e1 & e2 & ? & ? & ? & ?).
        exists l', e1, e2. simpl. auto.
    + destruct (IH chs H ch Hin) as (l' & e1 & e2 & ? & ? & ? & ?).
      exists l', e1, e2. simpl. auto.
Qed.

Lemma collect_chapters_complete links :
  (forall l, In l links -> Str.search match_chapter_title (chapter_text l) <> None ->
             link_href l <> None) ->
  collect_chapters links = Some (matched links).
Proof.
  induction links as [|l ls IH]; intro H; simpl; [reflexivity|].
  rewrite IH by (intros l' Hl'; apply H; simpl; auto).
  destruct (Str.search match_chapter_title (chapter_text l)) as [[d1 d2]|] eqn:Hs.
  - destruct (link_href l) as [h|] eqn:Hh; [reflexivity|].
    exfalso. apply (H l); [simpl; auto|congruence|assumption].
  - reflexivity.
Qed.

Lemma insert_chapter_perm x l : Permutation (insert_chapter x l) (x :: l).
Proof.
  induction l as [|y l IH]; simpl; [reflexivity|].
  destruct (lt (number y) (number x)); [|reflexivity].
  rewrite IH. apply perm_swap.
Qed.

Lemma sort_chapters_perm l : Permutation (sort_chapters l) l.
Proof.
  induction l as [|x l IH]; simpl; [reflexivity|].
  rewrite insert_chapter_perm. now apply perm_skip.
Qed.

(** ** Ordering of chapter numbers *)









Lemma collect_chapters_missing_href links l d :
  In l links -> link_href l = None ->
  Str.search match_chapter_title (chapter_text l) = Some d ->
  collect_chapters links = None.
Proof.
  intros Hin Hh Hs. induction links as [|l' ls IH]; [destruct Hin|].
  destruct Hin as [<-|Hin].
  - simpl. rewrite Hs. destruct d. rewrite Hh. reflexivity.
  - simpl. rewrite (IH Hin).
    destruct (Str.search match_chapter_title (chapter_text l')) as [[d1 d2]|];
      [destruct (link_href l'); reflexivity|reflexivity].
Qed.

Lemma get_chapter_list_sound links ch :
  In ch (get_chapter_list links) ->
  exists l d1 d2, In l links
    /\ Str.search match_chapter_title (chapter_text l) = Some (d1, d2)
    /\ link_href l = Some (ch_url ch)
    /\ number ch = float_of_dec d1 d2.
Proof.
  unfold get_chapter_list. destruct (collect_chapters links) as [chs|] eqn:E; [|intros []].
  intro Hin. apply (collect_chapters_sound _ _ E).
  exact (Permutation_in _ (sort_chapters_perm chs) Hin).
Qed.

Lemma get_chapter_list_nonneg links ch :
  In ch (get_chapter_list links) -> nonneg (number ch).
Proof.
  intro Hin. destruct (get_chapter_list_sound _ _ Hin) as (l & d1 & d2 & _ & Hs & _ & ->).
  destruct (search_sound _ _ _ Hs) as [s' Hs'].
  destruct (match_chapter_title_digits _ _ _ Hs') as [H1 H2].
  now apply float_of_dec_nonneg.
Qed.





(** ** Starting-chapter filter *)

Lemma val_abs_nonneg m e : 0 <= m -> (0 <= val_abs m e)%Q.
Proof.
  intro Hm. unfold val_abs. destruct (0 <=? e) eqn:He.
  - apply Z.leb_le in He. unfold Qle. simpl.
    assert (0 <= 2 ^ e) by (apply Z.pow_nonneg; lia). nia.
  - unfold Qle. simpl. lia.
Qed.

Lemma val_zero b e : (val b 0 e == 0)%Q.
Proof. unfold val, val_abs. destruct b, (0 <=? e); reflexivity. Qed.

(** A falsy start ([0.0] or [-0.0]) is below every chapter number. *)
Lemma ge_falsy x s : nonneg x -> truthy s = false -> ge x s = true.
Proof.
  intros Hx Hs. destruct s as [b m' e'| |]; simpl in Hs; try discriminate.
  apply negb_false_iff, Z.eqb_eq in Hs. subst m'.
  destruct x as [[] m e|[]|]; simpl in Hx; try contradiction; [|reflexivity].
  unfold ge, cmp. destruct (Qcompare (val false m e) (val b 0 e')) eqn:E;
    [reflexivity| |reflexivity].
  apply Qlt_alt in E. rewrite val_zero in E.
  pose proof (val_abs_nonneg m e Hx). unfold val in E.
  exfalso. apply (Qlt_not_le _ _ E). assumption.
Qed.

Definition alpha_links : list link :=
  [mkLink "Chapter 3" (Some "https://komikcast.cz/chapter/alpha-chapter-3/");
   mkLink "Chapter 2.5" (Some "https://komikcast.cz/chapter/alpha-chapter-2-5/");
   mkLink "Chapter 2" (Some "https://komikcast.cz/chapter/alpha-chapter-2/");
   mkLink "Chapter 1" (Some "https://komikcast.cz/chapter/alpha-chapter-1/")].

(** C9: for the chapters [get_chapter_list] yields and any start value
    [float(user_input)], the filter keeps exactly the chapters with
    [number >= start] (a falsy start [0.0] keeps all, which is the same
    set since chapter numbers are non-negative); with no start it keeps
    all; for chapters 1.0, 2.0, 2.5, 3.0 and start 2.0 it keeps 2.0, 2.5
    and 3.0, which [main] dispatches when no chapter folder exists. *)
Theorem filter_start_inclusive :
  (forall links start,
     filter_start (Some start) (get_chapter_list links)
     = filter (fun ch => ge (number ch) start) (get_chapter_list links)) /\
  (forall chapters, filter_start None chapters = chapters) /\
  (map (fun ch => repr (number ch)) (get_chapter_list alpha_links)
     = ["1.0"; "2.0"; "2.5"; "3.0"]
   /\ map (fun ch => repr (number ch))
          (filter_start (Some (float_of_dec "2" (Some "0"))) (get_chapter_list alpha_links))
      = ["2.0"; "2.5"; "3.0"]
   /\ fst (chapters_to_dispatch "alpha" (Some (float_of_dec "2" (Some "0")))
             (get_chapter_list alpha_links) (mkWorld [] true [] [] []))
      = Ok (filter_start (Some (float_of_dec "2" (Some "0"))) (get_chapter_list alpha_links))).
Proof.
  split; [|split].
  - intros links start. unfold filter_start. apply filter_ext_in.
    intros ch Hin. destruct (truthy start) eqn:Ht; [reflexivity|].
    simpl. symmetry. apply ge_falsy; [|assumption].
    exact (get_chapter_list_nonneg _ _ Hin).
  - intro chapters. unfold filter_start. induction chapters as [|c cs IH]; simpl; congruence.
  - vm_compute. repeat split.
Qed.

(** ** Witnesses: the theorems at concrete inputs *)

Definition alpha_ch2 : string := "https://komikcast.cz/chapter/alpha-chapter-2/".

Lemma scrape_chapter_images_skip_before_fetch_witness :
  chapter_num_of_url alpha_ch2 = Some "2"
  /\ fst (folder_exists (chapter_folder "alpha" "2")
            (mkWorld ["alpha/chapter-2/001"] true [HttpOk (mkBody ["https://img/001.jpg"])] [] []))
     = Ok true
  /\ scrape_chapter_images alpha_ch2 "alpha"
       (mkWorld ["alpha/chapter-2/001"] true [HttpOk (mkBody ["https://img/001.jpg"])] [] [])
     = (Ok [], after (mkWorld ["alpha/chapter-2/001"] true
                              [HttpOk (mkBody ["https://img/001.jpg"])] [] [])
                     [HttpOk (mkBody ["https://img/001.jpg"])]
                     [EvResources (chapter_folder "alpha" "2")]).
Proof.
  assert (H1 : chapter_num_of_url alpha_ch2 = Some "2") by (vm_compute; reflexivity).
  assert (H2 : fst (folder_exists (chapter_folder "alpha" "2")
                 (mkWorld ["alpha/chapter-2/001"] true
                          [HttpOk (mkBody ["https://img/001.jpg"])] [] [])) = Ok true)
    by (vm_compute; reflexivity).
  split; [exact H1|]. split; [exact H2|].
  exact (scrape_chapter_images_skip_before_fetch _ _ _ _ H1 H2).
Defined.

Lemma scrape_chapter_page_single_attempt_witness :
  chapter_num_of_url alpha_ch2 = Some "2"
  /\ fst (folder_exists (chapter_folder "alpha" "2")
            (mkWorld [] true [HttpStatus 503 None; HttpOk (mkBody [])] [] [])) = Ok false
  /\ is_failure (HttpStatus 503 None)
  /\ scrape_chapter_images alpha_ch2 "alpha"
       (mkWorld [] true [HttpStatus 503 None; HttpOk (mkBody [])] [] [])
     = (Ok [], after (mkWorld [] true [HttpStatus 503 None; HttpOk (mkBody [])] [] [])
                     [HttpOk (mkBody [])]
                     [EvResources (chapter_folder "alpha" "2"); EvGet alpha_ch2]).
Proof.
  assert (H1 : chapter_num_of_url alpha_ch2 = Some "2") by (vm_compute; reflexivity).
  assert (H2 : fst (folder_exists (chapter_folder "alpha" "2")
                 (mkWorld [] true [HttpStatus 503 None; HttpOk (mkBody [])] [] []))
               = Ok false) by (vm_compute; reflexivity).
  assert (H3 : is_failure (HttpStatus 503 None)) by (simpl; exact I).
  split; [exact H1|]. split; [exact H2|]. split; [exact H3|].
  exact (scrape_chapter_page_single_attempt _ _ _ _ _ _ H1 H2 eq_refl H3).
Defined.


Lemma fetch_data_with_retry_attempts_witness :
  fetch_data_with_retry alpha_ch2 MAX_RETRIES
    (mkWorld [] true [HttpConnErr; HttpStatus 502 None; HttpOk (mkBody [])] [] [])
  = (Ok (Some (mkBody [])),
     after (mkWorld [] true [HttpConnErr; HttpStatus 502 None; HttpOk (mkBody [])] [] [])
           [] [EvGet alpha_ch2; EvSleep 2; EvGet alpha_ch2; EvSleep 4; EvGet alpha_ch2])
  /\ fetch_data_with_retry alpha_ch2 MAX_RETRIES
       (mkWorld [] true [HttpConnErr; HttpStatus 502 None; HttpStatus 404 None] [] [])
     = (Raise (ExnHttp 404),
        after (mkWorld [] true [HttpConnErr; HttpStatus 502 None; HttpStatus 404 None] [] [])
              [] [EvGet alpha_ch2; EvSleep 2; EvGet alpha_ch2; EvSleep 4; EvGet alpha_ch2]).
Proof.
  destruct fetch_data_with_retry_attempts as [Hok [Hfail _]]. split.
  - apply (Hok _ _ HttpConnErr (HttpStatus 502 None)); simpl; auto.
  - apply (Hfail _ _ HttpConnErr (HttpStatus 502 None) (HttpStatus 404 None));
      simpl; auto.
Defined.


Lemma orchestrator_key_differs_from_pipeline_key_witness :
  chapter_num_of_url alpha_ch2 = Some "2"
  /\ main_folder_key "alpha" (mkChapter (float_of_dec "2" None) alpha_ch2) = "alpha/chapter-2.0"
  /\ chapter_folder "alpha" "2" = "alpha/chapter-2"
  /\ main_folder_key "alpha" (mkChapter (float_of_dec "2" None) alpha_ch2)
     <> chapter_folder "alpha" "2".
Proof.
  assert (H : chapter_num_of_url alpha_ch2 = Some "2") by (vm_compute; reflexivity).
  split; [exact H|]. split; [vm_compute; reflexivity|]. split; [reflexivity|].
  exact (orchestrator_key_differs_from_pipeline_key _ _ _ _ H).
Defined.

Definition alpha_meta : Db.meta :=
  [("title", Db.VStr "Alpha"); ("author", Db.VStr "A. Uthor"); ("type", Db.VStr "manga");
   ("status", Db.VStr "ongoing"); ("release", Db.VStr "2020");
   ("genres", Db.VList ["Action"; "Drama"]); ("synopsis", Db.VStr "...");
   ("rating", Db.VStr "8.5"); ("cover_image_url", Db.VStr "https://res/alpha/cover");
   ("slug", Db.VStr "alpha")].

Definition alpha_comic (updated_on : Z) : Db.comic :=
  Db.mkComic 1 (Db.VStr "Alpha") (Db.VStr "A. Uthor") (Db.VStr "manga")
    (Db.VStr "ongoing") (Db.VStr "2020") updated_on (Db.VList ["Action"; "Drama"])
    (Db.VStr "...") (Db.VStr "8.5") (Db.VStr "https://res/alpha/cover") "alpha".

(** [comic_meta] as [extract_comic_meta] returns it for a page without a
    type: ['n/a'], which is not a label of the [comic_type] enum. *)
Definition na_meta : Db.meta :=
  [("title", Db.VStr "Alpha"); ("author", Db.VStr "A. Uthor"); ("type", Db.VStr "n/a");
   ("status", Db.VStr "ongoing"); ("release", Db.VStr "2020");
   ("genres", Db.VList ["Action"; "Drama"]); ("synopsis", Db.VStr "...");
   ("rating", Db.VStr "8.5"); ("cover_image_url", Db.VStr "https://res/alpha/cover");
   ("slug", Db.VStr "alpha")].

(** C7 (counterexample): with no row for ["alpha"] and all nine keys
    present, no record is created when the database refuses the commit:
    on a database enforcing the [Enum] columns a type ['n/a'] makes
    [db.commit()] fail and the session roll back.  Nor is an existing
    row's [updated_on] refreshed when the commit fails. *)
Lemma save_comic_metadata_enum_refused :
  find (fun c => String.eqb (Db.slug c) "alpha") [] = None
  /\ Db.new_comic [] na_meta "alpha" 100 <> None
  /\ Db.save_comic_metadata Db.enum_accepts na_meta "alpha" 100 [] = []
  /\ Db.save_comic_metadata (fun _ => false) alpha_meta "alpha" 200 [alpha_comic 100]
     = [alpha_comic 100].
Proof.
  split; [reflexivity|]. split; [vm_compute; discriminate|].
  split; vm_compute; reflexivity.
Qed.

Lemma save_comic_metadata_upsert_witness :
  Db.save_comic_metadata Db.enum_accepts alpha_meta "alpha" 100 [] = [alpha_comic 100]
  /\ Db.save_comic_metadata Db.enum_accepts [] "alpha" 100 [] = []
  /\ Db.save_comic_metadata Db.enum_accepts [] "alpha" 200 [alpha_comic 100] = [alpha_comic 200].
Proof.
  destruct save_comic_metadata_upsert as [Hnew [Hmiss Hold]]. split; [|split].
  - rewrite (Hnew Db.enum_accepts alpha_meta "alpha" 100 [] (Db.VStr "Alpha")
               (Db.VStr "A. Uthor") (Db.VStr "manga") (Db.VStr "ongoing") (Db.VStr "2020")
               (Db.VList ["Action"; "Drama"]) (Db.VStr "...") (Db.VStr "8.5")
               (Db.VStr "https://res/alpha/cover")); reflexivity.
  - apply (Hmiss Db.enum_accepts [] "alpha" 100 []); reflexivity.
  - exact (Hold Db.enum_accepts [] "alpha" 200 [] (alpha_comic 100) [] (Forall_nil _) eq_refl).
Defined.

Definition cover_w0 : World :=
  mkWorld [] true [HttpOk (mkBody [])] [Some "https://res/alpha/cover"] [].

Definition cover_w1 : World :=
  mkWorld ["alpha/cover"] true [] []
    [EvResources "alpha/cover"; EvRateDelay; EvGet "https://img/cover.jpg";
     EvUpload "alpha" "cover"].

Lemma handle_cover_image_idempotent_witness :
  handle_cover_image "https://img/cover.jpg" "alpha" cover_w0
    = (Ok (Some "https://res/alpha/cover"), cover_w1)
  /\ fst (file_exists "alpha" "cover" cover_w1) = Ok true
  /\ handle_cover_image "https://img/cover.jpg" "alpha" cover_w1
     = (Ok None, after cover_w1 [] [EvResources "alpha/cover"])
  /\ (@Ok (option string) None = Ok None
      /\ after cover_w1 [] [EvResources "alpha/cover"]
         = after cover_w1 (w_http cover_w1) [EvResources ("alpha" ++ "/cover")]
      /\ (count_uploads (w_log (after cover_w1 [] [EvResources "alpha/cover"]))
          <= count_uploads (w_log cover_w0) + 1)%nat).
Proof.
  assert (H1 : handle_cover_image "https://img/cover.jpg" "alpha" cover_w0
               = (@Ok (option string) (Some "https://res/alpha/cover"), cover_w1))
    by (vm_compute; reflexivity).
  assert (H2 : fst (file_exists "alpha" "cover" cover_w1) = Ok true)
    by (vm_compute; reflexivity).
  assert (H3 : handle_cover_image "https://img/cover.jpg" "alpha" cover_w1
               = (@Ok (option string) None, after cover_w1 [] [EvResources "alpha/cover"]))
    by (vm_compute; reflexivity).
  split; [exact H1|]. split; [exact H2|]. split; [exact H3|].
  exact (handle_cover_image_idempotent _ _ _ _ _ _ _ _ H1 H2 H3).
Defined.

Definition ten_chapters : list (list event) :=
  map (fun n => [EvResources ("alpha/chapter-" ++ Str.z_digits (Z.of_nat n))])
      (seq 1 10).

Lemma gate_bounds_in_flight_witness :
  exists s, Gate.reachable (Gate.init ten_chapters) s
            /\ Gate.in_flight s = 3%nat
            /\ (Gate.in_flight s <= MAX_CONCURRENT_DOWNLOADS)%nat.
Proof.
  set (s0 := Gate.init ten_chapters).
  assert (R1 : Gate.reachable s0 (Gate.mkSched 2 (Gate.set_nth 0
                 (Gate.Holding [EvResources "alpha/chapter-1"]) (Gate.tasks s0)))).
  { apply (Gate.reach_step _ s0 (Gate.LAcquire 0)); [apply Gate.reach_refl|].
    apply Gate.step_acquire; [reflexivity|vm_compute; lia]. }
  assert (R2 : Gate.reachable s0 (Gate.mkSched 1 (Gate.set_nth 1
                 (Gate.Holding [EvResources "alpha/chapter-2"])
                 (Gate.set_nth 0 (Gate.Holding [EvResources "alpha/chapter-1"])
                    (Gate.tasks s0))))).
  { eapply Gate.reach_step; [exact R1|].
    apply Gate.step_acquire; [reflexivity|vm_compute; lia]. }
  assert (R3 : Gate.reachable s0 (Gate.mkSched 0 (Gate.set_nth 2
                 (Gate.Holding [EvResources "alpha/chapter-3"])
                 (Gate.set_nth 1 (Gate.Holding [EvResources "alpha/chapter-2"])
                    (Gate.set_nth 0 (Gate.Holding [EvResources "alpha/chapter-1"])
                       (Gate.tasks s0)))))).
  { eapply Gate.reach_step; [exact R2|].
    apply Gate.step_acquire; [reflexivity|vm_compute; lia]. }
  eexists. split; [exact R3|]. split; [vm_compute; reflexivity|].
  exact (proj1 gate_bounds_in_flight _ _ R3).
Defined.

End Props.

(* ================================================================== *)
(** * Further properties of the code *)

Module Extra.
Import Effects PyFloat Scraper Meta Main Props.

(** The log of a [fetch_data_with_retry] run making [k] attempts from
    loop index [attempt]: a GET per attempt, the back-off in between. *)
Fixpoint retry_log (url : string) (attempt k : nat) : list event :=
  match k with
  | O => []
  | S O => [EvGet url]
  | S k' =>
      EvGet url :: EvSleep (RETRY_DELAY * 2 ^ Z.of_nat attempt) :: retry_log url (S attempt) k'
  end.

(** Every character of [s] satisfies [f]. *)
Fixpoint all_chars (f : ascii -> bool) (s : string) : bool :=
  match s with
  | EmptyString => true
  | String c s' => f c && all_chars f s'
  end.

(** Seven-bit text, on which [unicodedata.normalize('NFKD', _)] is the identity. *)
Definition ascii7 (s : string) : bool := all_chars (fun c => (nat_of_ascii c <? 128)%nat) s.

(** The keys [extract_comic_meta] returns, in order. *)
Definition meta_fields : list string :=
  ["title"; "author"; "type"; "status"; "release"; "genres"; "synopsis"; "rating"].

(** [m] leaves the [comics] table as it is. *)
Definition keeps_db {A} (m : MM A) : Prop := forall st, st_db (snd (m st)) = st_db st.

(** [m] leaves the table as it is or saves one metadata dictionary under
    [title]. *)
Definition saves_at_most_once {A} (commits : list Db.comic -> bool) (title : string) (now : Z)
    (m : MM A) : Prop :=
  forall st, st_db (snd (m st)) = st_db st \/
             exists meta, st_db (snd (m st))
                          = Db.save_comic_metadata commits meta title now (st_db st).

(** Whether the asset API reports something under the prefix [p]. *)
Definition stored (w : World) (p : string) : bool :=
  w_api_up w && existsb (prefix p) (w_assets w).

(** Chapters whose number compares equal to [v]. *)
Definition same_number (v : pyfloat) (ch : chapter) : bool :=
  match cmp (number ch) v with Some Eq => true | _ => false end.

(** The keys [save_comic_metadata] reads from [comic_meta]. *)
Definition meta_keys : list string :=
  ["title"; "author"; "type"; "status"; "release"; "genres"; "synopsis"; "rating";
   "cover_image_url"].

(** An answer [download_image] handles as [aiohttp.ClientError]. *)
Definition is_client_error (r : http_resp) : Prop :=
  match r with
  | HttpConnErr => True
  | HttpStatus code _ => code <> 429
  | HttpOk _ => False
  end.

Lemma fetch_retry_loop_outcome url attempt n w :
  (1 <= n)%nat ->
  exists k, (1 <= k <= n)%nat /\
    w_log (snd (fetch_retry_loop url attempt n w)) = app (w_log w) (retry_log url attempt k) /\
    fst (fetch_retry_loop url attempt n w) <> Ok None.
Proof.
  revert attempt w; induction n as [|n IH]; intros attempt [a up http up' log] Hn; [lia|].
  simpl. unfold bind, http_get. simpl.
  destruct (match http with [] => (HttpConnErr, []) | r :: rest => (r, rest) end)
    as [resp rest] eqn:E.
  assert (Hstep : forall e,
    exists k, (1 <= k <= S n)%nat /\
      w_log (snd ((if Nat.eqb n 0 then raise e
                   else sleep (RETRY_DELAY * 2 ^ Z.of_nat attempt) ;;;
                        fetch_retry_loop url (S attempt) n)
                  (mkWorld a up rest up' (app log [EvGet url])))) = app log (retry_log url attempt k) /\
      fst ((if Nat.eqb n 0 then raise e
            else sleep (RETRY_DELAY * 2 ^ Z.of_nat attempt) ;;;
                 fetch_retry_loop url (S attempt) n)
           (mkWorld a up rest up' (app log [EvGet url]))) <> Ok None).
  { intro e. destruct (Nat.eqb n 0) eqn:En.
    - exists 1%nat. split; [lia|]. split; [reflexivity|]. simpl. discriminate.
    - apply Nat.eqb_neq in En. unfold bind, sleep, emit. simpl.
      destruct (IH (S attempt)
                  (mkWorld a up rest up' (app (app log [EvGet url])
                     [EvSleep (RETRY_DELAY * 2 ^ Z.of_nat attempt)])) ltac:(lia))
        as [k [Hk [Hl Hr]]].
      exists (S k). split; [lia|]. split; [|exact Hr].
      simpl in Hl. rewrite Hl. destruct k as [|k]; [lia|].
      change (retry_log url attempt (S (S k)))
        with (EvGet url :: EvSleep (RETRY_DELAY * 2 ^ Z.of_nat attempt)
                :: retry_log url (S attempt) (S k)).
      norm_log. reflexivity. }
  destruct resp as [b|code h|].
  - exists 1%nat. split; [lia|]. split; [reflexivity|]. simpl. discriminate.
  - apply Hstep.
  - apply Hstep.
Qed.

(** What a [download_loop] run appends to the log: at most one GET per
    remaining iteration and at most one upload, and an upload whenever it
    returns a url. *)
Definition loop_budget (n : nat) (r : result (option string)) (new : list event) : Prop :=
  (count_gets new <= n)%nat /\ (count_uploads new <= 1)%nat /\
  (forall s, r = Ok (Some s) -> count_uploads new = 1%nat).

Ltac budget_tac :=
  unfold loop_budget, count_gets, count_uploads; simpl; repeat split; try lia;
  try (intros ? Hr; discriminate Hr); try (intros; reflexivity).

Lemma download_loop_budget url slug chapter is_cover attempt n w :
  exists new,
    w_log (snd (download_loop url slug chapter is_cover attempt n w)) = app (w_log w) new /\
    loop_budget n (fst (download_loop url slug chapter is_cover attempt n w)) new.
Proof.
  revert attempt w; induction n as [|n IH]; intros attempt [a up http up' log].
  - exists []. simpl. rewrite app_nil_r. budget_tac.
  - simpl. unfold bind, http_get. simpl.
    destruct (match http with [] => (HttpConnErr, []) | r :: rest => (r, rest) end)
      as [resp rest] eqn:E.
    set (w1 := mkWorld a up rest up' (app log [EvGet url])).
    assert (Hnext : forall secs,
      exists new,
        w_log (snd ((sleep secs ;;; download_loop url slug chapter is_cover (S attempt) n) w1))
          = app log new /\
        loop_budget (S n)
          (fst ((sleep secs ;;; download_loop url slug chapter is_cover (S attempt) n) w1)) new).
    { intro secs. unfold bind, sleep, emit. simpl.
      destruct (IH (S attempt) (mkWorld a up rest up' (app (app log [EvGet url]) [EvSleep secs])))
        as [new [Hl [Hg [Hu Hs]]]].
      simpl in Hl. rewrite Hl. exists (EvGet url :: EvSleep secs :: new).
      split; [norm_log; reflexivity|].
      unfold loop_budget. split; [|split].
      - unfold count_gets in *. simpl. lia.
      - unfold count_uploads in *. simpl. lia.
      - intros s Hr. specialize (Hs s Hr). unfold count_uploads in *. simpl. exact Hs. }
    assert (Herr : forall e,
      exists new,
        w_log (snd ((if Nat.eqb n 0 then raise e
                     else sleep (2 ^ Z.of_nat attempt) ;;;
                          download_loop url slug chapter is_cover (S attempt) n) w1))
          = app log new /\
        loop_budget (S n)
          (fst ((if Nat.eqb n 0 then raise e
                 else sleep (2 ^ Z.of_nat attempt) ;;;
                      download_loop url slug chapter is_cover (S attempt) n) w1)) new).
    { intro e. destruct (Nat.eqb n 0); [|apply Hnext].
      exists [EvGet url]. split; [reflexivity|]. budget_tac. }
    destruct resp as [b|code h|].
    + destruct (upload_target url slug chapter is_cover) as [[folder filename]|].
      * unfold upload_image. simpl.
        exists [EvGet url; EvUpload folder filename].
        destruct up' as [|[u|] ups]; simpl; (split; [norm_log; reflexivity|]); budget_tac.
      * exists [EvGet url]. split; [reflexivity|]. budget_tac.
    + destruct (code =? 429); [|apply Herr].
      destruct (retry_after_secs h); [apply Hnext|].
      exists [EvGet url]. split; [reflexivity|]. budget_tac.
    + apply Herr.
Qed.

Lemma download_image_spec url slug chapter is_cover retries w :
  exists new,
    w_log (snd (download_image url slug chapter is_cover retries w))
      = app (w_log w) (EvRateDelay :: new) /\
    loop_budget retries (fst (download_image url slug chapter is_cover retries w)) new.
Proof.
  destruct w as [a up http up' log]. unfold download_image, bind, emit. simpl.
  destruct (download_loop_budget url slug chapter is_cover 0 retries
              (mkWorld a up http up' (app log [EvRateDelay]))) as [new [Hl Hb]].
  exists new. split; [|exact Hb]. simpl in Hl. rewrite Hl. norm_log. reflexivity.
Qed.

(** [download_each]: the urls it keeps are non-empty, one per upload at most. *)
Lemma download_each_spec imgs slug n acc w :
  exists new,
    w_log (snd (download_each imgs slug n acc w)) = app (w_log w) new /\
    (forall l, fst (download_each imgs slug n acc w) = Ok l ->
       exists added, l = app acc added /\ Forall (fun s => s <> EmptyString) added /\
                     (List.length added <= count_uploads new)%nat).
Proof.
  revert acc w; induction imgs as [|img imgs IH]; intros acc w.
  - exists []. simpl. rewrite app_nil_r. split; [reflexivity|].
    intros l Hl. injection Hl as <-. exists []. rewrite app_nil_r. repeat split; cbn; auto.
  - simpl. unfold bind.
    destruct (download_image_spec img slug (Some n) false 3 w) as [n1 [E1 [G1 [U1 S1]]]].
    destruct (download_image img slug (Some n) false 3 w) as [[u|e] w1] eqn:D;
      simpl in E1, S1.
    + set (acc' := match u with
                   | Some s => if String.eqb s EmptyString then acc else app acc [s]
                   | None => acc
                   end).
      destruct (IH acc' w1) as [n2 [E2 H2]].
      exists (app (EvRateDelay :: n1) n2). split; [rewrite E2, E1, app_assoc; reflexivity|].
      intros l Hl. destruct (H2 l Hl) as [added [Hla [Fa Ca]]].
      rewrite count_uploads_app.
      destruct u as [s|]; [destruct (String.eqb s EmptyString) eqn:Es|].
      * exists added. subst acc'. repeat split; auto. lia.
      * apply String.eqb_neq in Es. specialize (S1 s eq_refl).
        exists (s :: added). subst acc'. rewrite Hla, <- app_assoc. repeat split; auto.
        unfold count_uploads in *. simpl in *. lia.
      * exists added. subst acc'. repeat split; auto. lia.
    + exists (EvRateDelay :: n1). split; [exact E1|]. intros l Hl. discriminate Hl.
Qed.

Lemma download_each_app l1 l2 slug n acc w :
  download_each (app l1 l2) slug n acc w =
  match download_each l1 slug n acc w with
  | (Ok acc', w') => download_each l2 slug n acc' w'
  | (Raise e, w') => (Raise e, w')
  end.
Proof.
  revert acc w; induction l1 as [|img l1 IH]; intros acc w; [reflexivity|].
  simpl. unfold bind. destruct (download_image img slug (Some n) false 3 w) as [[u|e] w1];
    [apply IH|reflexivity].
Qed.

(** ** What reaches the asset store *)

(** [m] only adds assets, all of them under the prefix [p]. *)
Definition adds_under {A} (p : string) (m : M A) : Prop :=
  forall w, exists added, w_assets (snd (m w)) = app (w_assets w) added /\
                          Forall (fun x => prefix p x = true) added.

Lemma prefix_app p s : prefix p (p ++ s) = true.
Proof.
  induction p as [|c p IH]; simpl; [destruct s; reflexivity|].
  destruct (ascii_dec c c); [exact IH|congruence].
Qed.

Lemma string_app_assoc s1 s2 s3 : ((s1 ++ s2) ++ s3)%string = (s1 ++ (s2 ++ s3))%string.
Proof. induction s1 as [|c s1 IH]; simpl; congruence. Qed.

Lemma prefix_chapter_folder slug n f :
  prefix (chapter_folder slug n) ((slug ++ "/chapter-" ++ n) ++ "/" ++ f) = true.
Proof.
  replace ((slug ++ "/chapter-" ++ n) ++ "/" ++ f)%string
    with (chapter_folder slug n ++ ("/" ++ f))%string by reflexivity.
  apply prefix_app.
Qed.

Ltac adds_nil := intro w; exists []; rewrite app_nil_r; split; [reflexivity|constructor].

Lemma adds_ret {A} p (a : A) : adds_under p (ret a).
Proof. adds_nil. Qed.

Lemma adds_raise {A} p e : adds_under p (@raise A e).
Proof. adds_nil. Qed.

Lemma adds_emit p ev : adds_under p (emit ev).
Proof. adds_nil. Qed.

Lemma adds_http_get p url : adds_under p (http_get url).
Proof. intros [a up http up' log]. exists []. rewrite app_nil_r. unfold http_get.
  destruct http; split; try reflexivity; constructor. Qed.

Lemma adds_resources p q : adds_under p (resources_nonempty q).
Proof. adds_nil. Qed.

Lemma adds_upload_image p folder filename :
  prefix p (folder ++ "/" ++ filename) = true -> adds_under p (upload_image folder filename).
Proof.
  intros Hp [a up http up' log]. unfold upload_image.
  destruct up' as [|[u|] rest]; simpl.
  - exists []. rewrite app_nil_r. split; [reflexivity|constructor].
  - exists [folder ++ "/" ++ filename]. split; [reflexivity|]. constructor; [exact Hp|constructor].
  - exists []. rewrite app_nil_r. split; [reflexivity|constructor].
Qed.

Lemma adds_bind {A B} p (m : M A) (k : A -> M B) :
  adds_under p m -> (forall a, adds_under p (k a)) -> adds_under p (bind m k).
Proof.
  intros Hm Hk w. unfold bind. destruct (Hm w) as [ad1 [E1 F1]].
  destruct (m w) as [[a|e] w1]; simpl in E1.
  - destruct (Hk a w1) as [ad2 [E2 F2]]. exists (app ad1 ad2).
    rewrite E2, E1, app_assoc. split; [reflexivity|]. apply Forall_app; auto.
  - exists ad1. auto.
Qed.

Lemma adds_try {A} p (m : M A) (h : exn -> M A) :
  adds_under p m -> (forall e, adds_under p (h e)) -> adds_under p (try_except m h).
Proof.
  intros Hm Hh w. unfold try_except. destruct (Hm w) as [ad1 [E1 F1]].
  destruct (m w) as [[a|e] w1]; simpl in E1.
  - exists ad1. auto.
  - destruct (Hh e w1) as [ad2 [E2 F2]]. exists (app ad1 ad2).
    rewrite E2, E1, app_assoc. split; [reflexivity|]. apply Forall_app; auto.
Qed.

Lemma adds_download_loop url slug n attempt k :
  adds_under (chapter_folder slug n) (download_loop url slug (Some n) false attempt k).
Proof.
  revert attempt; induction k as [|k IH]; intro attempt; simpl; [apply adds_ret|].
  apply adds_bind; [apply adds_http_get|]. intros [b|code h|].
  - unfold upload_target. destruct (String.eqb n EmptyString); [apply adds_raise|].
    apply adds_bind; [|intro; apply adds_ret].
    apply adds_upload_image, prefix_chapter_folder.
  - destruct (code =? 429).
    { destruct (retry_after_secs h); [|apply adds_raise].
      apply adds_bind; [apply adds_emit|intro; apply IH]. }
    destruct (Nat.eqb k 0); [apply adds_raise|apply adds_bind; [apply adds_emit|intro; apply IH]].
  - destruct (Nat.eqb k 0); [apply adds_raise|apply adds_bind; [apply adds_emit|intro; apply IH]].
Qed.

Lemma adds_download_each imgs slug n acc :
  adds_under (chapter_folder slug n) (download_each imgs slug n acc).
Proof.
  revert acc; induction imgs as [|img imgs IH]; intro acc; simpl; [apply adds_ret|].
  apply adds_bind; [|intro; apply IH].
  unfold download_image. apply adds_bind; [apply adds_emit|intro; apply adds_download_loop].
Qed.

Lemma adds_scrape url slug n :
  chapter_num_of_url url = Some n -> adds_under (chapter_folder slug n) (scrape_chapter_images url slug).
Proof.
  intro Hn. unfold scrape_chapter_images. rewrite Hn.
  apply adds_try; [|intro; apply adds_ret].
  apply adds_bind; [apply adds_resources|]. intros [|]; [apply adds_ret|].
  apply adds_bind; [|intro; apply adds_download_each].
  unfold fetch_data. apply adds_bind; [apply adds_http_get|].
  intros [b|code h|]; [apply adds_ret|apply adds_raise|apply adds_raise].
Qed.

(** The pipeline's skip, for a store that reports the chapter folder. *)
Lemma scrape_skip_present url slug n w :
  chapter_num_of_url url = Some n ->
  w_api_up w = true -> existsb (prefix (chapter_folder slug n)) (w_assets w) = true ->
  scrape_chapter_images url slug w =
    (Ok [], after w (w_http w) [EvResources (chapter_folder slug n)]).
Proof.
  intros Hn Hup Hex. destruct w as [a up http up' log]. simpl in Hup, Hex. subst up.
  unfold scrape_chapter_images, try_except. rewrite Hn. run_m. rewrite Hex. reflexivity.
Qed.

(** ** Fetching and downloading *)

(** [fetch_data_with_retry] for any [max_retries]: with 0 it sends no
    request and returns [None]; with [n >= 1] it makes between 1 and [n]
    attempts, sleeping [RETRY_DELAY * 2 ^ i] seconds after the failed
    attempt of index [i], and returns a page or raises, never [None]. *)
Theorem fetch_data_with_retry_outcome url :
  (forall w, fetch_data_with_retry url 0 w = (Ok None, w)) /\
  (forall n w, (1 <= n)%nat ->
     exists k, (1 <= k <= n)%nat /\
       w_log (snd (fetch_data_with_retry url n w)) = app (w_log w) (retry_log url 0 k) /\
       fst (fetch_data_with_retry url n w) <> Ok None).
Proof.
  split; [reflexivity|]. intros n w Hn. apply fetch_retry_loop_outcome, Hn.
Qed.

(** [download_image] first waits the random rate-limit delay, then sends
    at most [retries] requests and uploads at most once; whenever it
    returns a url it has uploaded. *)
Theorem download_image_budget url slug chapter is_cover retries w :
  exists new,
    w_log (snd (download_image url slug chapter is_cover retries w))
      = app (w_log w) (EvRateDelay :: new) /\
    (count_gets new <= retries)%nat /\ (count_uploads new <= 1)%nat /\
    (forall s, fst (download_image url slug chapter is_cover retries w) = Ok (Some s) ->
               count_uploads new = 1%nat).
Proof. exact (download_image_spec url slug chapter is_cover retries w). Qed.

Ltac client_cases e H :=
  destruct e as [?|?code ?|]; [contradiction| apply Z.eqb_neq in H |].

(** Three transport failures or non-429 error statuses in a row: the
    download backs off [2 ** attempt] seconds (1, then 2) between the
    attempts and re-raises the third error. *)
Theorem download_image_backoff url slug chapter is_cover w e1 e2 e3 rest :
  is_client_error e1 -> is_client_error e2 -> is_client_error e3 ->
  w_http w = e1 :: e2 :: e3 :: rest ->
  download_image url slug chapter is_cover 3 w =
    (Raise (failure_exn e3),
     after w rest [EvRateDelay; EvGet url; EvSleep (2 ^ 0); EvGet url;
                   EvSleep (2 ^ 1); EvGet url]).
Proof.
  intros H1 H2 H3 Hw. destruct w as [a up http up' log]. simpl in Hw. subst http.
  client_cases e1 H1; client_cases e2 H2; client_cases e3 H3;
    unfold download_image; simpl; run_m;
    repeat match goal with H : (_ =? 429) = false |- _ => rewrite H; simpl; clear H end;
    norm_log; reflexivity.
Qed.

(** A failed upload is not retried: the page is fetched once, the upload
    attempted once, and [download_image] returns the empty string. *)
Theorem download_image_upload_failure url slug chapter is_cover retries w b rest
    folder filename ups :
  (1 <= retries)%nat ->
  upload_target url slug chapter is_cover = Some (folder, filename) ->
  w_http w = HttpOk b :: rest -> w_upload w = None :: ups ->
  download_image url slug chapter is_cover retries w =
    (Ok (Some EmptyString),
     mkWorld (w_assets w) (w_api_up w) rest ups
             (app (w_log w) [EvRateDelay; EvGet url; EvUpload folder filename])).
Proof.
  intros Hr Ht Hw Hu. destruct retries as [|r]; [lia|].
  destruct w as [a up http up' log]. simpl in Hw, Hu. subst http up'.
  unfold download_image. simpl. run_m. rewrite Ht. simpl. norm_log. reflexivity.
Qed.

(** ** The chapter pipeline *)

(** [scrape_chapter_images] never raises; the urls it returns are
    non-empty, and there are no more of them than uploads it performed. *)
Theorem scrape_chapter_images_result url slug w :
  exists l new,
    fst (scrape_chapter_images url slug w) = Ok l /\
    w_log (snd (scrape_chapter_images url slug w)) = app (w_log w) new /\
    Forall (fun s => s <> EmptyString) l /\ (List.length l <= count_uploads new)%nat.
Proof.
  unfold scrape_chapter_images, try_except.
  destruct (chapter_num_of_url url) as [n|].
  - destruct w as [a up http up' log].
    unfold bind, folder_exists, resources_nonempty. simpl.
    destruct (if up then existsb (prefix (chapter_folder slug n)) a else false).
    + exists [], [EvResources (chapter_folder slug n)]. simpl. repeat split; auto; cbn; lia.
    + unfold fetch_data, bind, http_get. simpl.
      destruct (match http with [] => (HttpConnErr, []) | r :: rest => (r, rest) end)
        as [resp rest].
      destruct resp as [b|code h|]; simpl.
      * set (w2 := mkWorld a up rest up'
                     (app (app log [EvResources (chapter_folder slug n)]) [EvGet url])).
        destruct (download_each_spec (body_imgs b) slug n [] w2) as [new [E H]].
        destruct (download_each (body_imgs b) slug n [] w2) as [[l|e] w3]; simpl in E, H.
        -- destruct (H l eq_refl) as [added [Hl [F C]]]. simpl in Hl. subst l.
           exists added, (EvResources (chapter_folder slug n) :: EvGet url :: new).
           simpl. rewrite E. subst w2. simpl. norm_log.
           repeat split; auto; unfold count_uploads in *; simpl; exact C.
        -- exists [], (EvResources (chapter_folder slug n) :: EvGet url :: new).
           simpl. rewrite E. subst w2. simpl. norm_log. repeat split; auto; cbn; lia.
      * exists [], [EvResources (chapter_folder slug n); EvGet url].
        norm_log. repeat split; auto; cbn; lia.
      * exists [], [EvResources (chapter_folder slug n); EvGet url].
        norm_log. repeat split; auto; cbn; lia.
  - exists [], []. simpl. rewrite app_nil_r. repeat split; auto.
Qed.

(** An image whose download raises (three transport failures, say) ends
    the chapter: the images after it get no request, and the pipeline
    returns [[]] although the images before it were uploaded. *)
Theorem scrape_chapter_images_abort url slug n w b rest pre img post acc w2 e w3 :
  chapter_num_of_url url = Some n ->
  fst (folder_exists (chapter_folder slug n) w) = Ok false ->
  w_http w = HttpOk b :: rest ->
  body_imgs b = app pre (img :: post) ->
  download_each pre slug n [] (after w rest [EvResources (chapter_folder slug n); EvGet url])
    = (Ok acc, w2) ->
  download_image img slug (Some n) false 3 w2 = (Raise e, w3) ->
  scrape_chapter_images url slug w = (Ok [], w3).
Proof.
  intros Hn Hex Hw Hb Hpre Himg. destruct w as [a up http up' log]. simpl in Hw. subst http.
  unfold scrape_chapter_images, try_except. rewrite Hn.
  unfold bind at 1, folder_exists, resources_nonempty. simpl in Hex |- *.
  injection Hex as Hex. rewrite Hex.
  unfold fetch_data, bind, http_get. simpl. rewrite Hb, download_each_app.
  unfold after in Hpre. simpl in Hpre. rewrite <- app_assoc. simpl. rewrite Hpre.
  simpl. unfold bind. rewrite Himg. reflexivity.
Qed.

(** Once a run of the pipeline has put any image of a chapter in the
    store, even a run that then failed part-way, every later run for that
    chapter url, in any later world whose asset API is up and still holds
    those assets (whatever the network answers and whatever else was
    stored meanwhile), is skipped after the folder check: the missing
    images of the chapter are never fetched. *)
Theorem scrape_chapter_partial_never_resumed url slug n w r w1 :
  chapter_num_of_url url = Some n ->
  scrape_chapter_images url slug w = (r, w1) ->
  (List.length (w_assets w) < List.length (w_assets w1))%nat ->
  forall w', w_api_up w' = true -> incl (w_assets w1) (w_assets w') ->
  scrape_chapter_images url slug w' =
    (Ok [], after w' (w_http w') [EvResources (chapter_folder slug n)]).
Proof.
  intros Hn Hrun Hlen w' Hup Hincl. apply scrape_skip_present; [exact Hn|exact Hup|].
  destruct (adds_scrape url slug n Hn w) as [added [Ea Fa]].
  rewrite Hrun in Ea. simpl in Ea. rewrite Ea in Hlen, Hincl.
  destruct added as [|x added]; [rewrite app_nil_r in Hlen; lia|].
  apply existsb_exists. exists x. split.
  - apply Hincl. apply in_or_app; right; left; reflexivity.
  - inversion Fa; assumption.
Qed.

(** The folder check is a prefix match: a stored image of chapter [N]
    followed by more characters (chapter 10, 11, ... for chapter 1) makes
    the pipeline skip chapter [N] without fetching it. *)
Theorem chapter_skipped_by_longer_number url slug n d f w :
  chapter_num_of_url url = Some n -> w_api_up w = true ->
  In (chapter_folder slug (n ++ d) ++ "/" ++ f) (w_assets w) ->
  scrape_chapter_images url slug w =
    (Ok [], after w (w_http w) [EvResources (chapter_folder slug n)]).
Proof.
  intros Hn Hup Hin. apply scrape_skip_present; [exact Hn|exact Hup|].
  apply existsb_exists. eexists. split; [exact Hin|].
  unfold chapter_folder. rewrite !string_app_assoc.
  replace (slug ++ "/chapter-" ++ n ++ d ++ "/" ++ f)%string
    with ((slug ++ "/chapter-" ++ n) ++ (d ++ "/" ++ f))%string
    by (rewrite !string_app_assoc; reflexivity).
  apply prefix_app.
Qed.

(** ** The chapter list and the orchestrator's selection *)

(** A single matching chapter link without an [href] makes the whole
    chapter list empty: the KeyError is caught for the whole loop. *)
Theorem get_chapter_list_missing_href links l d :
  In l links -> link_href l = None ->
  Str.search match_chapter_title (chapter_text l) = Some d ->
  get_chapter_list links = [].
Proof.
  intros Hin Hh Hs. unfold get_chapter_list.
  rewrite (collect_chapters_missing_href links l d Hin Hh Hs). reflexivity.
Qed.

Lemma cmp_lt_eq a b c : cmp a b = Some Lt -> cmp b c = Some Eq -> cmp a c = Some Lt.
Proof.
  intros H1 H2.
  destruct a as [na ma ea|na|], b as [nb mb eb|nb|], c as [nc mc ec|nc|];
    simpl in *; try discriminate;
    repeat match goal with x : bool |- _ => destruct x end;
    simpl in *; try discriminate; try reflexivity;
    injection H1 as H1; injection H2 as H2; f_equal;
    rewrite <- Qlt_alt in *; rewrite <- Qeq_alt in *;
    (eapply Qlt_le_trans; [exact H1|apply Qle_lteq; right; exact H2]).
Qed.

Lemma filter_insert_other v x l :
  same_number v x = false ->
  filter (same_number v) (insert_chapter x l) = filter (same_number v) l.
Proof.
  intro Hx. induction l as [|y l IH]; simpl; [rewrite Hx; reflexivity|].
  destruct (lt (number y) (number x)); simpl.
  - rewrite IH. reflexivity.
  - rewrite Hx. reflexivity.
Qed.

Lemma filter_insert_same v x l :
  same_number v x = true ->
  filter (same_number v) (insert_chapter x l) = x :: filter (same_number v) l.
Proof.
  intro Hx. induction l as [|y l IH]; simpl; [rewrite Hx; reflexivity|].
  destruct (lt (number y) (number x)) eqn:Hyx; simpl.
  - assert (Hy : same_number v y = false).
    { unfold same_number, lt in *.
      destruct (cmp (number y) (number x)) as [[]|] eqn:E; try discriminate.
      destruct (cmp (number x) v) as [[]|] eqn:E'; try discriminate.
      rewrite (cmp_lt_eq _ _ _ E E'). reflexivity. }
    rewrite Hy, IH. reflexivity.
  - rewrite Hx. reflexivity.
Qed.

Lemma sort_chapters_stable v l :
  filter (same_number v) (sort_chapters l) = filter (same_number v) l.
Proof.
  induction l as [|x l IH]; simpl; [reflexivity|].
  destruct (same_number v x) eqn:Hx.
  - rewrite filter_insert_same by exact Hx. rewrite IH. reflexivity.
  - rewrite filter_insert_other by exact Hx. exact IH.
Qed.

(** [sorted] is stable: chapters whose numbers compare equal (the same
    chapter listed twice, "Chapter 5" and "Chapter 5.0") keep the order of
    their links on the page. *)
Theorem get_chapter_list_stable links v :
  (forall l, In l links -> Str.search match_chapter_title (chapter_text l) <> None ->
             link_href l <> None) ->
  filter (same_number v) (get_chapter_list links) = filter (same_number v) (matched links).
Proof.
  intro H. unfold get_chapter_list. rewrite (collect_chapters_complete links H).
  apply sort_chapters_stable.
Qed.

Lemma filter_not_downloaded_spec title chs w :
  filter_not_downloaded title chs w =
    (Ok (filter (fun ch => negb (stored w (main_folder_key title ch))) chs),
     after w (w_http w) (map (fun ch => EvResources (main_folder_key title ch)) chs)).
Proof.
  revert w; induction chs as [|ch chs IH]; intros [a up http up' log].
  - unfold after. simpl. rewrite app_nil_r. reflexivity.
  - simpl. unfold bind, folder_exists, resources_nonempty. simpl. rewrite IH.
    unfold after, stored. simpl. rewrite <- app_assoc. simpl.
    destruct up; simpl; [destruct (existsb _ a)|]; reflexivity.
Qed.

(** The orchestrator's selection makes one asset-API request per chapter
    kept by the start filter, in order, and no GET; it keeps those
    chapters, in order, whose key ["title/chapter-" ++ repr number] the
    API does not report (all of them when the API fails). *)
Theorem chapters_to_dispatch_spec title start chs w :
  chapters_to_dispatch title start chs w =
    (Ok (filter (fun ch => negb (stored w (main_folder_key title ch)))
                (filter_start start chs)),
     after w (w_http w)
       (map (fun ch => EvResources (main_folder_key title ch)) (filter_start start chs))).
Proof. apply filter_not_downloaded_spec. Qed.

(** ** The [comics] table *)

Lemma touch_first_slugs s now db :
  map Db.slug (Db.touch_first s now db) = map Db.slug db.
Proof.
  induction db as [|c db IH]; simpl; [reflexivity|].
  destruct (String.eqb (Db.slug c) s); simpl; [reflexivity|]. rewrite IH. reflexivity.
Qed.

Lemma touch_first_keeps s now db c :
  In c db -> Db.slug c <> s -> In c (Db.touch_first s now db).
Proof.
  induction db as [|c' db IH]; simpl; [auto|]. intros [<-|Hin] Hs.
  - apply String.eqb_neq in Hs. rewrite Hs. left. reflexivity.
  - destruct (String.eqb (Db.slug c') s); right; [exact Hin|apply IH; assumption].
Qed.

Lemma new_comic_slug db m s now c : Db.new_comic db m s now = Some c -> Db.slug c = s.
Proof.
  unfold Db.new_comic, Db.obind.
  repeat match goal with |- context[Db.getitem m ?k] => destruct (Db.getitem m k) end;
    intro H; try discriminate; injection H as <-; reflexivity.
Qed.

Lemma find_slug_none s db :
  Forall (fun c => Db.slug c <> s) db -> find (fun c => String.eqb (Db.slug c) s) db = None.
Proof.
  induction 1 as [|c db Hc _ IH]; simpl; [reflexivity|].
  apply String.eqb_neq in Hc. rewrite Hc. exact IH.
Qed.

Lemma new_comic_missing db m s now k :
  In k meta_keys -> Db.getitem m k = None -> Db.new_comic db m s now = None.
Proof.
  intros Hin Hk. simpl in Hin.
  destruct Hin as [<-|[<-|[<-|[<-|[<-|[<-|[<-|[<-|[<-|[]]]]]]]]]];
    unfold Db.new_comic, Db.obind;
    repeat match goal with |- context[Db.getitem m ?k'] => destruct (Db.getitem m k') eqn:? end;
    congruence.
Qed.

Lemma save_missing_key commits m s now db k :
  Forall (fun c => Db.slug c <> s) db -> In k meta_keys -> Db.getitem m k = None ->
  Db.save_comic_metadata commits m s now db = db.
Proof.
  intros Hdb Hin Hk. unfold Db.save_comic_metadata, Db.pending.
  rewrite find_slug_none by exact Hdb.
  rewrite (new_comic_missing db m s now k Hin Hk). reflexivity.
Qed.

(** [save_comic_metadata] keeps slugs unique, whatever the database
    commits: it inserts only for a slug that is absent, and a refresh
    leaves every slug in place. *)
Theorem save_comic_metadata_slugs_unique commits m s now db :
  NoDup (map Db.slug db) -> NoDup (map Db.slug (Db.save_comic_metadata commits m s now db)).
Proof.
  intro H. unfold Db.save_comic_metadata, Db.pending.
  destruct (find (fun c => String.eqb (Db.slug c) s) db) eqn:F.
  - destruct (commits _); [|exact H]. rewrite touch_first_slugs. exact H.
  - destruct (Db.new_comic db m s now) as [c|] eqn:N; [|exact H].
    destruct (commits _); [|exact H].
    rewrite map_app. simpl. rewrite (new_comic_slug _ _ _ _ _ N).
    apply (Permutation_NoDup (l := s :: map Db.slug db)).
    + apply Permutation_cons_append.
    + constructor; [|exact H]. intro Hin. apply in_map_iff in Hin as [c' [Hs Hc']].
      pose proof (find_none _ _ F c' Hc') as Hf. simpl in Hf.
      apply String.eqb_neq in Hf. contradiction.
Qed.

(** A comic that is not in the table yet is not saved at all when
    [comic_meta] lacks one of the keys the insert reads: the KeyError is
    caught and the session rolled back. *)
Theorem save_comic_metadata_missing_key commits m s now db k :
  Forall (fun c => Db.slug c <> s) db -> In k meta_keys -> Db.getitem m k = None ->
  Db.save_comic_metadata commits m s now db = db.
Proof. exact (save_missing_key commits m s now db k). Qed.

(** [save_comic_metadata] removes no row and leaves every row of another
    slug as it was; it adds at most one row, for the given slug, at the
    end; this whatever the database commits. *)
Theorem save_comic_metadata_frame commits m s now db :
  (forall c, In c db -> Db.slug c <> s -> In c (Db.save_comic_metadata commits m s now db)) /\
  (map Db.slug (Db.save_comic_metadata commits m s now db) = map Db.slug db \/
   map Db.slug (Db.save_comic_metadata commits m s now db) = app (map Db.slug db) [s]).
Proof.
  unfold Db.save_comic_metadata, Db.pending.
  destruct (find (fun c => String.eqb (Db.slug c) s) db) eqn:F.
  - destruct (commits _); [|split; [auto|left; reflexivity]].
    split; [intros; apply touch_first_keeps; assumption|left; apply touch_first_slugs].
  - destruct (Db.new_comic db m s now) as [c|] eqn:N; [|split; [auto|left; reflexivity]].
    destruct (commits _); [|split; [auto|left; reflexivity]].
    split; [intros c' Hc' _; apply in_or_app; left; exact Hc'|].
    right. rewrite map_app. simpl. rewrite (new_comic_slug _ _ _ _ _ N). reflexivity.
Qed.

(** ** File names *)

Lemma all_chars_app f s t : all_chars f (s ++ t) = all_chars f s && all_chars f t.
Proof. induction s as [|c s IH]; simpl; [reflexivity|]. rewrite IH. apply andb_assoc. Qed.

Lemma all_chars_rev f s : all_chars f (Str.rev_str s) = all_chars f s.
Proof.
  induction s as [|c s IH]; simpl; [reflexivity|].
  rewrite all_chars_app, IH. simpl. rewrite andb_true_r. apply andb_comm.
Qed.

Lemma all_chars_lstrip f s : all_chars f s = true -> all_chars f (Str.lstrip s) = true.
Proof.
  induction s as [|c s IH]; simpl; [auto|]. intro H.
  destruct (Str.is_space c); [apply IH; apply andb_true_iff in H; apply H|exact H].
Qed.

Lemma all_chars_strip f s : all_chars f s = true -> all_chars f (Str.strip s) = true.
Proof.
  intro H. unfold Str.strip. rewrite all_chars_rev. apply all_chars_lstrip.
  rewrite all_chars_rev. apply all_chars_lstrip. exact H.
Qed.

Lemma all_chars_remove_forbidden f s :
  all_chars f s = true -> all_chars f (remove_forbidden s) = true.
Proof.
  induction s as [|c s IH]; simpl; [auto|]. intro H. apply andb_true_iff in H as [Hc Hs].
  destruct (is_forbidden c); simpl; [|rewrite Hc]; apply IH; exact Hs.
Qed.

Lemma remove_forbidden_clean s : all_chars (fun c => negb (is_forbidden c)) (remove_forbidden s) = true.
Proof.
  induction s as [|c s IH]; simpl; [reflexivity|].
  destruct (is_forbidden c) eqn:E; simpl; [exact IH|rewrite E, IH; reflexivity].
Qed.

Lemma remove_forbidden_id s :
  all_chars (fun c => negb (is_forbidden c)) s = true -> remove_forbidden s = s.
Proof.
  induction s as [|c s IH]; simpl; [reflexivity|]. intro H.
  apply andb_true_iff in H as [Hc Hs]. destruct (is_forbidden c); [discriminate|].
  rewrite IH by exact Hs. reflexivity.
Qed.

Lemma append_nil s : (s ++ EmptyString)%string = s.
Proof. induction s as [|c s IH]; simpl; [reflexivity|]. rewrite IH. reflexivity. Qed.

Lemma rev_str_app s t : Str.rev_str (s ++ t) = (Str.rev_str t ++ Str.rev_str s)%string.
Proof.
  induction s as [|c s IH]; simpl; [rewrite append_nil; reflexivity|].
  rewrite IH. apply string_app_assoc.
Qed.

Lemma rev_str_involutive s : Str.rev_str (Str.rev_str s) = s.
Proof.
  induction s as [|c s IH]; simpl; [reflexivity|]. rewrite rev_str_app, IH. reflexivity.
Qed.

(** The text does not start with whitespace. *)
Definition starts_ok (s : string) : bool :=
  match s with String c _ => negb (Str.is_space c) | EmptyString => true end.

Lemma lstrip_starts_ok s : starts_ok (Str.lstrip s) = true.
Proof.
  induction s as [|c s IH]; simpl; [reflexivity|].
  destruct (Str.is_space c) eqn:E; [exact IH|simpl; rewrite E; reflexivity].
Qed.

Lemma lstrip_id s : starts_ok s = true -> Str.lstrip s = s.
Proof.
  destruct s as [|c s]; simpl; [reflexivity|]. intro H.
  destruct (Str.is_space c); [discriminate|reflexivity].
Qed.

Lemma lstrip_suffix s : exists p, s = (p ++ Str.lstrip s)%string.
Proof.
  induction s as [|c s [p IH]]; simpl; [exists EmptyString; reflexivity|].
  destruct (Str.is_space c); [exists (String c p); simpl; rewrite <- IH; reflexivity|].
  exists EmptyString; reflexivity.
Qed.

Lemma starts_ok_app s t : starts_ok (s ++ t) = true -> starts_ok s = true.
Proof. destruct s; simpl; auto. Qed.

Lemma strip_idempotent s : Str.strip (Str.strip s) = Str.strip s.
Proof.
  unfold Str.strip at 1 3.
  set (u := Str.lstrip s). set (t := Str.lstrip (Str.rev_str u)).
  destruct (lstrip_suffix (Str.rev_str u)) as [p Hp]. fold t in Hp.
  assert (Hu : u = (Str.rev_str t ++ Str.rev_str p)%string).
  { rewrite <- rev_str_app, <- Hp, rev_str_involutive. reflexivity. }
  assert (Ht : starts_ok (Str.rev_str t) = true).
  { apply (starts_ok_app _ (Str.rev_str p)). rewrite <- Hu. apply lstrip_starts_ok. }
  change (Str.strip s) with (Str.rev_str t). rewrite (lstrip_id _ Ht), rev_str_involutive.
  rewrite (lstrip_id t) by apply lstrip_starts_ok. reflexivity.
Qed.

(** On seven-bit input, where NFKD changes nothing, [sanitize_filename]
    returns text with none of the characters [<>:/\|?*] or the double
    quote and no surrounding whitespace, and applying it again changes
    nothing. *)
Theorem sanitize_filename_ascii (nfkd : string -> string) s :
  (forall t, ascii7 t = true -> nfkd t = t) -> ascii7 s = true ->
  all_chars (fun c => negb (is_forbidden c)) (sanitize_filename nfkd s) = true /\
  Str.strip (sanitize_filename nfkd s) = sanitize_filename nfkd s /\
  sanitize_filename nfkd (sanitize_filename nfkd s) = sanitize_filename nfkd s.
Proof.
  intros Hn Ha. unfold sanitize_filename.
  assert (Hr : nfkd (remove_forbidden s) = remove_forbidden s)
    by (apply Hn; apply all_chars_remove_forbidden; exact Ha).
  rewrite Hr.
  assert (Hc : all_chars (fun c => negb (is_forbidden c)) (Str.strip (remove_forbidden s)) = true)
    by (apply all_chars_strip; apply remove_forbidden_clean).
  split; [exact Hc|split; [apply strip_idempotent|]].
  rewrite (remove_forbidden_id _ Hc).
  rewrite Hn by (apply all_chars_strip, all_chars_remove_forbidden; exact Ha).
  apply strip_idempotent.
Qed.

Lemma all_chars_true s : all_chars (fun _ => true) s = true.
Proof. induction s as [|c s IH]; simpl; [reflexivity|exact IH]. Qed.

Lemma split_pieces sep s f :
  all_chars f s = true ->
  Forall (fun w => all_chars f w = true /\
                   all_chars (fun c => negb (Ascii.eqb c sep)) w = true) (Str.split sep s).
Proof.
  induction s as [|c s IH]; simpl; intro H; [repeat constructor|].
  apply andb_true_iff in H as [Hc Hs]. specialize (IH Hs).
  destruct (Str.split sep s) as [|w ws] eqn:E; [constructor|].
  inversion IH as [|? ? [Hw1 Hw2] Hws]; subst.
  destruct (Ascii.eqb c sep) eqn:Ec.
  - repeat constructor; assumption.
  - constructor; [|exact Hws]. simpl. rewrite Hc, Hw1, Ec, Hw2. split; reflexivity.
Qed.

Lemma last_in_or_default {A} (l : list A) d : last l d = d \/ In (last l d) l.
Proof.
  induction l as [|x l IH]; simpl; [left; reflexivity|].
  destruct l as [|y l]; [right; left; reflexivity|].
  destruct IH as [IH|IH]; [left|right; right]; exact IH.
Qed.

(** The public id [download_image] uploads a chapter image under contains
    no slash and no dot: it is a single path component without extension
    inside the chapter folder, whatever the URL. *)
Theorem image_filename_component url :
  all_chars (fun c => negb (Ascii.eqb c "/"%char) && negb (Ascii.eqb c "."%char))
    (image_filename url) = true.
Proof.
  unfold image_filename.
  assert (Hx : all_chars (fun c => negb (Ascii.eqb c "/"%char))
                 (last (Str.split "/"%char url) EmptyString) = true).
  { destruct (last_in_or_default (Str.split "/"%char url) EmptyString) as [E|Hin];
      [rewrite E; reflexivity|].
    pose proof (split_pieces "/"%char url (fun _ => true)) as P.
    specialize (P (all_chars_true url)). rewrite Forall_forall in P. apply (P _ Hin). }
  pose proof (split_pieces "."%char _ _ Hx) as P.
  destruct (Str.split "."%char _) as [|w ws]; [reflexivity|].
  inversion P as [|? ? [Hw1 Hw2] _]; subst. simpl.
  clear -Hw1 Hw2. induction w as [|c w IH]; simpl in *; [reflexivity|].
  apply andb_true_iff in Hw1 as [A1 B1]. apply andb_true_iff in Hw2 as [A2 B2].
  rewrite A1, A2. exact (IH B1 B2).
Qed.

(** ** Comic metadata *)

(** When the page has no title, type or status element, [extract_comic_meta]
    falls back on [N/A]: the title becomes [NA] (the slash is removed by
    [sanitize_filename]) and the type and status become [n/a], which is
    none of the values the [Comic] enums accept. *)
Theorem extract_comic_meta_missing_elements (nfkd : string -> string) pg :
  (forall t, ascii7 t = true -> nfkd t = t) ->
  pg_title pg = None -> pg_type pg = None -> pg_status pg = None ->
  Db.getitem (extract_comic_meta nfkd pg) "title" = Some (Db.VStr "NA") /\
  Db.getitem (extract_comic_meta nfkd pg) "type" = Some (Db.VStr "n/a") /\
  Db.getitem (extract_comic_meta nfkd pg) "status" = Some (Db.VStr "n/a") /\
  ~ In "n/a" Db.comic_type_enum /\ ~ In "n/a" Db.comic_status_enum.
Proof.
  intros Hn Ht Hy Hs. unfold extract_comic_meta, sanitize_filename.
  rewrite Ht, Hy, Hs. simpl. rewrite (Hn "NA" eq_refl).
  split; [reflexivity|split; [reflexivity|split; [reflexivity|]]].
  split; simpl; intuition discriminate.
Qed.

(** [scrape_comic_meta] never raises; a dictionary it returns has the keys
    of [extract_comic_meta], then [cover_image_url] when a cover was
    uploaded, then [slug], which holds the title it was given. *)
Theorem scrape_comic_meta_result nfkd parse url title w :
  (exists r, fst (scrape_comic_meta nfkd parse url title w) = Ok r) /\
  (forall m, fst (scrape_comic_meta nfkd parse url title w) = Ok (Some m) ->
     Db.getitem m "slug" = Some (Db.VStr title) /\
     (map fst m = app meta_fields ["slug"] \/
      map fst m = app meta_fields ["cover_image_url"; "slug"])).
Proof.
  destruct w as [a up http ups log].
  unfold scrape_comic_meta, try_except, bind, fetch_data, http_get, ret, raise.
  destruct http as [|[b|code h|] rest]; simpl;
    try (split; [eexists; reflexivity|intros m Hm; discriminate Hm]).
  destruct (pg_thumb (parse b)) as [[src|]|]; simpl;
    try (split; [eexists; reflexivity|intros m Hm; discriminate Hm]).
  destruct (handle_cover_image src title _) as [[[cu|]|e] w2]; simpl;
    (split; [eexists; reflexivity|intros m Hm; try discriminate Hm]);
    injection Hm as <-; simpl; split; try reflexivity;
    first [left; reflexivity|right; reflexivity].
Qed.

Lemma scrape_meta_cover_present nfkd parse url title w b rest src :
  w_http w = HttpOk b :: rest -> pg_thumb (parse b) = Some (Some src) ->
  stored w (title ++ "/cover") = true ->
  scrape_comic_meta nfkd parse url title w =
    (Ok (Some (app (extract_comic_meta nfkd (parse b)) [("slug", Db.VStr title)])),
     after w rest [EvGet url; EvResources (title ++ "/cover")]).
Proof.
  intros Hh Hp Hs. destruct w as [a up http ups log]. simpl in Hh. subst http.
  unfold stored in Hs. simpl in Hs. destruct up; [|discriminate Hs]. simpl in Hs.
  unfold scrape_comic_meta, try_except, fetch_data, handle_cover_image. run_m.
  rewrite Hp. simpl. rewrite Hs. simpl. norm_log. reflexivity.
Qed.

(** When the cover is already stored, [scrape_comic_meta] neither
    downloads nor uploads it: it makes one GET and one asset-API request,
    and the dictionary it returns has no [cover_image_url]. *)
Theorem scrape_comic_meta_cover_present nfkd parse url title w b rest src :
  w_http w = HttpOk b :: rest -> pg_thumb (parse b) = Some (Some src) ->
  stored w (title ++ "/cover") = true ->
  scrape_comic_meta nfkd parse url title w =
    (Ok (Some (app (extract_comic_meta nfkd (parse b)) [("slug", Db.VStr title)])),
     after w rest [EvGet url; EvResources (title ++ "/cover")]).
Proof. exact (scrape_meta_cover_present nfkd parse url title w b rest src). Qed.

(** ** [main] *)

Lemma after_after w h1 n1 h2 n2 : after (after w h1 n1) h2 n2 = after w h2 (app n1 n2).
Proof. unfold after. simpl. rewrite app_assoc. reflexivity. Qed.

Lemma stored_after w h n p : stored (after w h n) p = stored w p.
Proof. reflexivity. Qed.

Lemma filter_start_none chs : filter_start None chs = chs.
Proof. induction chs as [|c chs IH]; simpl; [reflexivity|]. rewrite IH. reflexivity. Qed.

Lemma fetch_data_with_retry_first_ok url w b rest :
  w_http w = HttpOk b :: rest ->
  fetch_data_with_retry url MAX_RETRIES w = (Ok (Some b), after w rest [EvGet url]).
Proof. intro Hh. destruct w; simpl in Hh; subst. reflexivity. Qed.

(** Three failed GETs of the comic page (connection errors or error
    statuses) end [main] without an error: it returns nothing to dispatch,
    the table is unchanged, and the log holds the three GETs with the
    sleeps of 2 and 4 seconds between them. *)
Theorem main_comic_page_unreachable nfkd parse urljoin py_float commits title base_url user_input now
    w db e1 e2 e3 rest :
  is_failure e1 -> is_failure e2 -> is_failure e3 ->
  w_http w = e1 :: e2 :: e3 :: rest ->
  main nfkd parse urljoin py_float commits title base_url user_input now (mkSt w db) =
    (Ok [], mkSt (after w rest
                   (retry_log (urljoin base_url ("komik/" ++ title ++ "/")) 0 3)) db).
Proof.
  intros H1 H2 H3 Hh. destruct w as [a up http ups log]. simpl in Hh. subst http.
  failure_cases e1; failure_cases e2; failure_cases e3;
    unfold main, mtry, mbind, lift, mret, fetch_data_with_retry, MAX_RETRIES; run_m;
    norm_log; reflexivity.
Qed.

(** [main] fetches the comic page twice ([fetch_data_with_retry], then
    [fetch_data] in [scrape_comic_meta]); when the second fetch fails,
    [main] stops after these two GETs with nothing dispatched and the
    table unchanged. *)
Theorem main_meta_fetch_fails nfkd parse urljoin py_float commits title base_url user_input now
    w db b e rest :
  w_http w = HttpOk b :: e :: rest -> is_failure e ->
  main nfkd parse urljoin py_float commits title base_url user_input now (mkSt w db) =
    (Ok [], mkSt (after w rest [EvGet (urljoin base_url ("komik/" ++ title ++ "/"));
                                EvGet (urljoin base_url ("komik/" ++ title ++ "/"))]) db).
Proof.
  intros Hh He. destruct w as [a up http ups log]. simpl in Hh. subst http.
  failure_cases e;
    unfold main, mtry, mbind, lift, mret, fetch_data_with_retry, MAX_RETRIES,
      scrape_comic_meta, try_except, fetch_data; run_m;
    norm_log; reflexivity.
Qed.

Lemma keeps_lift {A} (m : M A) : keeps_db (lift m).
Proof. intro st. unfold lift. destruct (m (st_world st)). reflexivity. Qed.

Lemma keeps_mret {A} (a : A) : keeps_db (mret a).
Proof. intro st. reflexivity. Qed.

Lemma keeps_mraise {A} e : keeps_db (@mraise A e).
Proof. intro st. reflexivity. Qed.

Lemma keeps_bind {A B} (m : MM A) (k : A -> MM B) :
  keeps_db m -> (forall a, keeps_db (k a)) -> keeps_db (mbind m k).
Proof.
  intros Hm Hk st. unfold mbind. specialize (Hm st).
  destruct (m st) as [[a|e] st']; simpl in *; [rewrite Hk|]; exact Hm.
Qed.

Lemma once_of_keeps {A} commits title now (m : MM A) : keeps_db m -> saves_at_most_once commits title now m.
Proof. intros H st. left. apply H. Qed.

Lemma once_save commits meta title now : saves_at_most_once commits title now (save_meta commits meta title now).
Proof. intro st. right. exists meta. reflexivity. Qed.

Lemma once_bind_keeps_once {A B} commits title now (m : MM A) (k : A -> MM B) :
  keeps_db m -> (forall a, saves_at_most_once commits title now (k a)) ->
  saves_at_most_once commits title now (mbind m k).
Proof.
  intros Hm Hk st. unfold mbind. specialize (Hm st).
  destruct (m st) as [[a|e] st'] eqn:E; simpl in *; [|left; exact Hm].
  rewrite <- Hm. apply Hk.
Qed.

Lemma once_bind_once_keeps {A B} commits title now (m : MM A) (k : A -> MM B) :
  saves_at_most_once commits title now m -> (forall a, keeps_db (k a)) ->
  saves_at_most_once commits title now (mbind m k).
Proof.
  intros Hm Hk st. unfold mbind. specialize (Hm st).
  unfold keeps_db in Hk.
  destruct (m st) as [[a|e] st'] eqn:E; simpl in *; [rewrite !Hk|]; exact Hm.
Qed.

Lemma once_try {A} commits title now (m : MM A) (h : exn -> MM A) :
  saves_at_most_once commits title now m -> (forall e, keeps_db (h e)) ->
  saves_at_most_once commits title now (mtry m h).
Proof.
  intros Hm Hh st. unfold mtry. specialize (Hm st).
  unfold keeps_db in Hh.
  destruct (m st) as [[a|e] st'] eqn:E; simpl in *; [|rewrite !Hh]; exact Hm.
Qed.

(** Whatever the network, the asset API, the page and the input, [main]
    never lets an exception escape, and it changes the [comics] table at
    most once: by one [save_comic_metadata] under the slug [title]. *)
Theorem main_total_single_save nfkd parse urljoin py_float commits title base_url user_input now st :
  (exists l, fst (main nfkd parse urljoin py_float commits title base_url user_input now st) = Ok l) /\
  (st_db (snd (main nfkd parse urljoin py_float commits title base_url user_input now st)) = st_db st \/
   exists meta, st_db (snd (main nfkd parse urljoin py_float commits title base_url user_input now st))
                = Db.save_comic_metadata commits meta title now (st_db st)).
Proof.
  split.
  - unfold main, mtry. match goal with |- context[match ?m st with _ => _ end] =>
      destruct (m st) as [[l|e] st'] end; eexists; reflexivity.
  - revert st. unfold main. apply once_try; [|intro; apply keeps_mret].
    apply once_bind_keeps_once; [apply keeps_lift|intros [data|]];
      [|apply once_of_keeps, keeps_mraise].
    apply once_bind_keeps_once; [apply keeps_lift|intros [[|kv meta]|]];
      try apply once_of_keeps, keeps_mret.
    destruct (get_chapter_list _) as [|c cs]; [apply once_of_keeps, keeps_mret|].
    apply once_bind_keeps_once.
    + destruct (String.eqb _ _); [apply keeps_mret|].
      destruct (py_float _); [apply keeps_mret|apply keeps_mraise].
    + intro start. apply once_bind_once_keeps; [apply once_save|intros _].
      apply keeps_bind; [apply keeps_lift|intro; apply keeps_mret].
Qed.

(** When the comic page lists no chapter (or a chapter link without
    [href]), or the starting chapter typed in is not a number, [main]
    dispatches nothing and does not touch the [comics] table: the save
    comes after both checks. *)
Theorem main_no_save_without_chapters nfkd parse urljoin py_float commits title base_url user_input now
    w db b rest :
  w_http w = HttpOk b :: rest ->
  get_chapter_list (pg_chapter_links (parse b)) = [] \/
  (Str.strip user_input <> EmptyString /\ py_float (Str.strip user_input) = None) ->
  fst (main nfkd parse urljoin py_float commits title base_url user_input now (mkSt w db)) = Ok [] /\
  st_db (snd (main nfkd parse urljoin py_float commits title base_url user_input now (mkSt w db))) = db.
Proof.
  intros Hh Hc. unfold main, mtry, mbind, lift. cbn [st_world st_db].
  rewrite (fetch_data_with_retry_first_ok _ w b rest Hh).
  destruct (scrape_comic_meta nfkd parse _ title _) as [[[[|kv meta]|]|e] w2];
    cbn; try (split; reflexivity).
  destruct Hc as [Hc|[Hu Hf]]; [rewrite Hc; split; reflexivity|].
  destruct (get_chapter_list _) as [|c cs]; [split; reflexivity|].
  apply String.eqb_neq in Hu. rewrite Hu, Hf. split; reflexivity.
Qed.

(** When the cover is already stored and the comic is not in the table,
    [main] saves nothing: the dictionary has no [cover_image_url], the
    insert raises KeyError, and [save_comic_metadata] rolls back and
    swallows it. [main] still goes on and dispatches every chapter from
    the start typed in (all of them when nothing is typed in) that the
    asset API does not report. *)
Theorem main_cover_present_new_comic_not_saved nfkd parse urljoin py_float commits title base_url
    user_input now w db b1 b2 rest src start :
  w_http w = HttpOk b1 :: HttpOk b2 :: rest ->
  pg_thumb (parse b2) = Some (Some src) ->
  stored w (title ++ "/cover") = true ->
  Forall (fun c => Db.slug c <> title) db ->
  get_chapter_list (pg_chapter_links (parse b1)) <> [] ->
  (Str.strip user_input = EmptyString /\ start = None) \/
  (Str.strip user_input <> EmptyString /\
   exists f, py_float (Str.strip user_input) = Some f /\ start = Some f) ->
  main nfkd parse urljoin py_float commits title base_url user_input now (mkSt w db) =
    (Ok (map ch_url (filter (fun ch => negb (stored w (main_folder_key title ch)))
                            (filter_start start
                               (get_chapter_list (pg_chapter_links (parse b1)))))),
     mkSt (after w rest
             (EvGet (urljoin base_url ("komik/" ++ title ++ "/")) ::
              EvGet (urljoin base_url ("komik/" ++ title ++ "/")) ::
              EvResources (title ++ "/cover") ::
              map (fun ch => EvResources (main_folder_key title ch))
                  (filter_start start (get_chapter_list (pg_chapter_links (parse b1)))))) db).
Proof.
  intros Hh Hp Hs Hdb Hc Hu. unfold main, mtry, mbind, lift. cbn [st_world st_db].
  rewrite (fetch_data_with_retry_first_ok _ w b1 _ Hh).
  rewrite (scrape_meta_cover_present nfkd parse _ title
             (after w (HttpOk b2 :: rest) [EvGet (urljoin base_url ("komik/" ++ title ++ "/"))])
             b2 rest src eq_refl Hp)
    by (rewrite stored_after; exact Hs).
  destruct (get_chapter_list (pg_chapter_links (parse b1))) as [|c cs] eqn:E;
    [contradiction|].
  cbn -[extract_comic_meta Db.save_comic_metadata chapters_to_dispatch].
  remember (app (extract_comic_meta nfkd (parse b2)) [("slug", Db.VStr title)]) as meta eqn:Em.
  assert (Hm : Db.getitem meta "cover_image_url" = None) by (subst meta; reflexivity).
  destruct meta as [|kv meta']; [destruct (extract_comic_meta nfkd (parse b2)); discriminate|].
  assert (Hstart : (if String.eqb (Str.strip user_input) EmptyString then mret None
                    else match py_float (Str.strip user_input) with
                         | Some f => mret (Some f)
                         | None => mraise ExnValue
                         end) = @mret (option pyfloat) start).
  { destruct Hu as [[Hu ->]|[Hu [f [Hf ->]]]].
    - rewrite Hu. reflexivity.
    - apply String.eqb_neq in Hu. rewrite Hu, Hf. reflexivity. }
  rewrite Hstart. cbn -[Db.save_comic_metadata chapters_to_dispatch].
  rewrite (save_missing_key commits _ title now db "cover_image_url" Hdb)
    by (try exact Hm; do 8 right; left; reflexivity).
  unfold chapters_to_dispatch. rewrite filter_not_downloaded_spec.
  cbn -[filter filter_start]. rewrite !after_after. reflexivity.
Qed.

(** ** Witnesses: the theorems at concrete inputs *)

Definition img1 : string := "https://img/001.jpg".
Definition img2 : string := "https://img/002.jpg".
Definition img3 : string := "https://img/003.jpg".

Definition backoff_w : World :=
  mkWorld [] true [HttpStatus 503 None; HttpConnErr; HttpStatus 404 None] [] [].

Lemma download_image_backoff_witness :
  is_client_error (HttpStatus 503 None) /\ is_client_error HttpConnErr
  /\ is_client_error (HttpStatus 404 None)
  /\ download_image img1 "alpha" (Some "2") false 3 backoff_w
     = (Raise (failure_exn (HttpStatus 404 None)),
        after backoff_w [] [EvRateDelay; EvGet img1; EvSleep (2 ^ 0); EvGet img1;
                            EvSleep (2 ^ 1); EvGet img1]).
Proof.
  assert (H1 : is_client_error (HttpStatus 503 None)) by (simpl; discriminate).
  assert (H2 : is_client_error HttpConnErr) by (simpl; exact I).
  assert (H3 : is_client_error (HttpStatus 404 None)) by (simpl; discriminate).
  split; [exact H1|]. split; [exact H2|]. split; [exact H3|].
  exact (download_image_backoff img1 "alpha" (Some "2") false backoff_w _ _ _ [] H1 H2 H3 eq_refl).
Defined.

Definition upload_fail_w : World := mkWorld [] true [HttpOk (mkBody [])] [None] [].

Lemma download_image_upload_failure_witness :
  (1 <= 3)%nat
  /\ upload_target img1 "alpha" (Some "2") false = Some ("alpha/chapter-2", "001")
  /\ download_image img1 "alpha" (Some "2") false 3 upload_fail_w
     = (Ok (Some EmptyString),
        mkWorld [] true [] []
                (app [] [EvRateDelay; EvGet img1; EvUpload "alpha/chapter-2" "001"])).
Proof.
  assert (H1 : (1 <= 3)%nat) by lia.
  assert (H2 : upload_target img1 "alpha" (Some "2") false = Some ("alpha/chapter-2", "001"))
    by (vm_compute; reflexivity).
  split; [exact H1|]. split; [exact H2|].
  exact (download_image_upload_failure img1 "alpha" (Some "2") false 3 upload_fail_w
           (mkBody []) [] "alpha/chapter-2" "001" [] H1 H2 eq_refl eq_refl).
Defined.

(** A chapter of three images whose second download fails three times. *)
Definition abort_w : World :=
  mkWorld [] true [HttpOk (mkBody [img1; img2; img3]); HttpOk (mkBody []);
                   HttpConnErr; HttpConnErr; HttpConnErr] [Some "https://res/1"] [].

Definition abort_w2 : World :=
  mkWorld ["alpha/chapter-2/001"] true [HttpConnErr; HttpConnErr; HttpConnErr] []
    [EvResources "alpha/chapter-2"; EvGet alpha_ch2; EvRateDelay; EvGet img1;
     EvUpload "alpha/chapter-2" "001"].

Definition abort_w3 : World :=
  mkWorld ["alpha/chapter-2/001"] true [] []
    [EvResources "alpha/chapter-2"; EvGet alpha_ch2; EvRateDelay; EvGet img1;
     EvUpload "alpha/chapter-2" "001"; EvRateDelay; EvGet img2; EvSleep 1;
     EvGet img2; EvSleep 2; EvGet img2].

Lemma scrape_chapter_images_abort_witness :
  chapter_num_of_url alpha_ch2 = Some "2"
  /\ fst (folder_exists (chapter_folder "alpha" "2") abort_w) = Ok false
  /\ body_imgs (mkBody [img1; img2; img3]) = app [img1] (img2 :: [img3])
  /\ download_each [img1] "alpha" "2" []
       (after abort_w [HttpOk (mkBody []); HttpConnErr; HttpConnErr; HttpConnErr]
              [EvResources (chapter_folder "alpha" "2"); EvGet alpha_ch2])
     = (Ok ["https://res/1"], abort_w2)
  /\ download_image img2 "alpha" (Some "2") false 3 abort_w2 = (Raise ExnConn, abort_w3)
  /\ scrape_chapter_images alpha_ch2 "alpha" abort_w = (Ok [], abort_w3).
Proof.
  assert (H1 : chapter_num_of_url alpha_ch2 = Some "2") by (vm_compute; reflexivity).
  assert (H2 : fst (folder_exists (chapter_folder "alpha" "2") abort_w) = Ok false)
    by (vm_compute; reflexivity).
  assert (H3 : body_imgs (mkBody [img1; img2; img3]) = app [img1] (img2 :: [img3]))
    by reflexivity.
  assert (H4 : download_each [img1] "alpha" "2" []
                 (after abort_w [HttpOk (mkBody []); HttpConnErr; HttpConnErr; HttpConnErr]
                        [EvResources (chapter_folder "alpha" "2"); EvGet alpha_ch2])
               = (Ok ["https://res/1"], abort_w2)) by (vm_compute; reflexivity).
  assert (H5 : download_image img2 "alpha" (Some "2") false 3 abort_w2
               = (@Raise (option string) ExnConn, abort_w3)) by (vm_compute; reflexivity).
  split; [exact H1|]. split; [exact H2|]. split; [exact H3|]. split; [exact H4|].
  split; [exact H5|].
  exact (scrape_chapter_images_abort alpha_ch2 "alpha" "2" abort_w _ _ [img1] img2 [img3]
           _ _ _ _ H1 H2 eq_refl H3 H4 H5).
Defined.

(** A later world: the assets of [abort_w3] and one more, other answers
    from the network. *)
Definition later_w : World :=
  mkWorld (app (w_assets abort_w3) ["beta/cover"]) true
          [HttpOk (mkBody [img1; img2; img3])] [Some "https://res/x"] [].

Lemma scrape_chapter_partial_never_resumed_witness :
  chapter_num_of_url alpha_ch2 = Some "2"
  /\ scrape_chapter_images alpha_ch2 "alpha" abort_w = (Ok [], abort_w3)
  /\ (List.length (w_assets abort_w) < List.length (w_assets abort_w3))%nat
  /\ w_api_up later_w = true
  /\ incl (w_assets abort_w3) (w_assets later_w)
  /\ scrape_chapter_images alpha_ch2 "alpha" later_w
     = (Ok [], after later_w (w_http later_w) [EvResources (chapter_folder "alpha" "2")]).
Proof.
  assert (H1 : chapter_num_of_url alpha_ch2 = Some "2") by (vm_compute; reflexivity).
  assert (H2 : scrape_chapter_images alpha_ch2 "alpha" abort_w = (Ok [], abort_w3))
    by (vm_compute; reflexivity).
  assert (H3 : (List.length (w_assets abort_w) < List.length (w_assets abort_w3))%nat)
    by (simpl; lia).
  assert (H4 : w_api_up later_w = true) by reflexivity.
  assert (H5 : incl (w_assets abort_w3) (w_assets later_w))
    by (unfold later_w; cbn [w_assets]; apply incl_appl, incl_refl).
  split; [exact H1|]. split; [exact H2|]. split; [exact H3|]. split; [exact H4|].
  split; [exact H5|].
  exact (scrape_chapter_partial_never_resumed alpha_ch2 "alpha" "2" abort_w _ _ H1 H2 H3
           later_w H4 H5).
Defined.

Definition alpha_ch1 : string := "https://komikcast.cz/chapter/alpha-chapter-1/".

Definition ch10_w : World := mkWorld ["alpha/chapter-10/001"] true [] [] [].

Lemma chapter_skipped_by_longer_number_witness :
  chapter_num_of_url alpha_ch1 = Some "1"
  /\ w_api_up ch10_w = true
  /\ In (chapter_folder "alpha" ("1" ++ "0") ++ "/" ++ "001") (w_assets ch10_w)
  /\ scrape_chapter_images alpha_ch1 "alpha" ch10_w
     = (Ok [], after ch10_w (w_http ch10_w) [EvResources (chapter_folder "alpha" "1")]).
Proof.
  assert (H1 : chapter_num_of_url alpha_ch1 = Some "1") by (vm_compute; reflexivity).
  assert (H2 : w_api_up ch10_w = true) by reflexivity.
  assert (H3 : In (chapter_folder "alpha" ("1" ++ "0") ++ "/" ++ "001") (w_assets ch10_w))
    by (left; reflexivity).
  split; [exact H1|]. split; [exact H2|]. split; [exact H3|].
  exact (chapter_skipped_by_longer_number alpha_ch1 "alpha" "1" "0" "001" ch10_w H1 H2 H3).
Defined.

Definition no_href_links : list link :=
  [mkLink "Chapter 2" (Some "https://komikcast.cz/chapter/alpha-chapter-2/");
   mkLink "Chapter 1" None].

Lemma get_chapter_list_missing_href_witness :
  In (mkLink "Chapter 1" None) no_href_links
  /\ link_href (mkLink "Chapter 1" None) = None
  /\ Str.search match_chapter_title (chapter_text (mkLink "Chapter 1" None)) = Some ("1", None)
  /\ get_chapter_list no_href_links = [].
Proof.
  assert (H1 : In (mkLink "Chapter 1" None) no_href_links) by (right; left; reflexivity).
  assert (H2 : link_href (mkLink "Chapter 1" None) = None) by reflexivity.
  assert (H3 : Str.search match_chapter_title (chapter_text (mkLink "Chapter 1" None))
               = Some ("1", None)) by (vm_compute; reflexivity).
  split; [exact H1|]. split; [exact H2|]. split; [exact H3|].
  exact (get_chapter_list_missing_href no_href_links _ _ H1 H2 H3).
Defined.

(** The same chapter listed as 5.0, then 3, then 5. *)
Definition dup_links : list link :=
  [mkLink "Chapter 5.0" (Some "u-5.0"); mkLink "Chapter 3" (Some "u-3");
   mkLink "Chapter 5" (Some "u-5")].

Lemma get_chapter_list_stable_witness :
  (forall l, In l dup_links -> Str.search match_chapter_title (chapter_text l) <> None ->
             link_href l <> None)
  /\ map ch_url (filter (same_number (float_of_dec "5" None)) (get_chapter_list dup_links))
     = ["u-5.0"; "u-5"]
  /\ filter (same_number (float_of_dec "5" None)) (get_chapter_list dup_links)
     = filter (same_number (float_of_dec "5" None)) (matched dup_links).
Proof.
  assert (H : forall l, In l dup_links -> Str.search match_chapter_title (chapter_text l) <> None ->
                        link_href l <> None).
  { intros l Hl _. destruct Hl as [<-|[<-|[<-|[]]]]; simpl; discriminate. }
  split; [exact H|]. split; [vm_compute; reflexivity|].
  exact (get_chapter_list_stable dup_links (float_of_dec "5" None) H).
Defined.

Definition alpha_row : Db.comic :=
  Db.mkComic 1 (Db.VStr "Alpha") (Db.VStr "A. Uthor") (Db.VStr "manga")
    (Db.VStr "ongoing") (Db.VStr "2020") 100 (Db.VList ["Action"; "Drama"])
    (Db.VStr "...") (Db.VStr "8.5") (Db.VStr "https://res/alpha/cover") "alpha".

Lemma save_comic_metadata_slugs_unique_witness :
  NoDup (map Db.slug [alpha_row])
  /\ map Db.slug (Db.save_comic_metadata Db.enum_accepts alpha_meta "beta" 200 [alpha_row]) = ["alpha"; "beta"]
  /\ NoDup (map Db.slug (Db.save_comic_metadata Db.enum_accepts alpha_meta "beta" 200 [alpha_row])).
Proof.
  assert (H : NoDup (map Db.slug [alpha_row])) by (repeat constructor; simpl; tauto).
  split; [exact H|]. split; [vm_compute; reflexivity|].
  exact (save_comic_metadata_slugs_unique Db.enum_accepts alpha_meta "beta" 200 [alpha_row] H).
Defined.

(** [alpha_meta] without its [cover_image_url]. *)
Definition alpha_meta_no_cover : Db.meta :=
  filter (fun kv => negb (String.eqb (fst kv) "cover_image_url")) alpha_meta.

Lemma save_comic_metadata_missing_key_witness :
  Forall (fun c => Db.slug c <> "beta") [alpha_row]
  /\ In "cover_image_url" meta_keys
  /\ Db.getitem alpha_meta_no_cover "cover_image_url" = None
  /\ Db.save_comic_metadata Db.enum_accepts alpha_meta_no_cover "beta" 200 [alpha_row] = [alpha_row].
Proof.
  assert (H1 : Forall (fun c => Db.slug c <> "beta") [alpha_row])
    by (repeat constructor; simpl; discriminate).
  assert (H2 : In "cover_image_url" meta_keys) by (do 8 right; left; reflexivity).
  assert (H3 : Db.getitem alpha_meta_no_cover "cover_image_url" = None)
    by (vm_compute; reflexivity).
  split; [exact H1|]. split; [exact H2|]. split; [exact H3|].
  exact (save_comic_metadata_missing_key Db.enum_accepts alpha_meta_no_cover "beta" 200 [alpha_row] _ H1 H2 H3).
Defined.

Lemma sanitize_filename_ascii_witness :
  (forall t, ascii7 t = true -> (fun x : string => x) t = t)
  /\ ascii7 " One: Piece? " = true
  /\ sanitize_filename (fun x => x) " One: Piece? " = "One Piece"
  /\ (all_chars (fun c => negb (is_forbidden c)) (sanitize_filename (fun x => x) " One: Piece? ") = true
      /\ Str.strip (sanitize_filename (fun x => x) " One: Piece? ")
         = sanitize_filename (fun x => x) " One: Piece? "
      /\ sanitize_filename (fun x => x) (sanitize_filename (fun x => x) " One: Piece? ")
         = sanitize_filename (fun x => x) " One: Piece? ").
Proof.
  assert (H1 : forall t, ascii7 t = true -> (fun x : string => x) t = t) by reflexivity.
  assert (H2 : ascii7 " One: Piece? " = true) by reflexivity.
  split; [exact H1|]. split; [exact H2|]. split; [vm_compute; reflexivity|].
  exact (sanitize_filename_ascii (fun x => x) " One: Piece? " H1 H2).
Defined.

Definition empty_page : comic_page := mkPage None None None None None [] None None None [].

Lemma extract_comic_meta_missing_elements_witness :
  (forall t, ascii7 t = true -> (fun x : string => x) t = t)
  /\ pg_title empty_page = None /\ pg_type empty_page = None /\ pg_status empty_page = None
  /\ (Db.getitem (extract_comic_meta (fun x => x) empty_page) "title" = Some (Db.VStr "NA")
      /\ Db.getitem (extract_comic_meta (fun x => x) empty_page) "type" = Some (Db.VStr "n/a")
      /\ Db.getitem (extract_comic_meta (fun x => x) empty_page) "status" = Some (Db.VStr "n/a")
      /\ ~ In "n/a" Db.comic_type_enum /\ ~ In "n/a" Db.comic_status_enum).
Proof.
  assert (H1 : forall t, ascii7 t = true -> (fun x : string => x) t = t) by reflexivity.
  split; [exact H1|]. split; [reflexivity|]. split; [reflexivity|]. split; [reflexivity|].
  exact (extract_comic_meta_missing_elements (fun x => x) empty_page H1 eq_refl eq_refl eq_refl).
Defined.

(** A comic page as BeautifulSoup would read it: every element present,
    a cover and two chapter links. *)
Definition alpha_page : comic_page :=
  mkPage (Some " Alpha Bahasa Indonesia ") (Some "Author: A. Uthor") (Some "Manga")
    (Some "Status: Ongoing") (Some "Released: 2020") [" Action "; "Drama"]
    (Some "An alpha.") (Some "Rating 8.5") (Some (Some "https://img/cover.jpg"))
    [mkLink "Chapter 2" (Some "https://komikcast.cz/chapter/alpha-chapter-2/");
     mkLink "Chapter 1" (Some "https://komikcast.cz/chapter/alpha-chapter-1/")].

Definition alpha_parse (_ : body) : comic_page := alpha_page.

Definition cover_stored_w : World :=
  mkWorld ["alpha/cover"] true [HttpOk (mkBody []); HttpOk (mkBody [])] [] [].

Definition alpha_url : string := "https://komikcast.cz/komik/alpha/".

Lemma scrape_comic_meta_cover_present_witness :
  w_http cover_stored_w = HttpOk (mkBody []) :: [HttpOk (mkBody [])]
  /\ pg_thumb (alpha_parse (mkBody [])) = Some (Some "https://img/cover.jpg")
  /\ stored cover_stored_w ("alpha" ++ "/cover") = true
  /\ scrape_comic_meta (fun x => x) alpha_parse alpha_url "alpha" cover_stored_w
     = (Ok (Some (app (extract_comic_meta (fun x => x) (alpha_parse (mkBody [])))
                      [("slug", Db.VStr "alpha")])),
        after cover_stored_w [HttpOk (mkBody [])]
              [EvGet alpha_url; EvResources ("alpha" ++ "/cover")]).
Proof.
  assert (H3 : stored cover_stored_w ("alpha" ++ "/cover") = true) by (vm_compute; reflexivity).
  split; [reflexivity|]. split; [reflexivity|]. split; [exact H3|].
  exact (scrape_comic_meta_cover_present (fun x => x) alpha_parse alpha_url "alpha"
           cover_stored_w (mkBody []) [HttpOk (mkBody [])] _ eq_refl eq_refl H3).
Defined.

Definition demo_urljoin (base path : string) : string := base ++ path.
Definition no_float (_ : string) : option pyfloat := None.

Definition down_w : World :=
  mkWorld [] true [HttpConnErr; HttpStatus 503 None; HttpStatus 404 None] [] [].

Lemma main_comic_page_unreachable_witness :
  is_failure HttpConnErr /\ is_failure (HttpStatus 503 None) /\ is_failure (HttpStatus 404 None)
  /\ main (fun x => x) alpha_parse demo_urljoin no_float Db.enum_accepts "alpha" "https://komikcast.cz/" "" 0
       (mkSt down_w [alpha_row])
     = (Ok [], mkSt (after down_w []
                      (retry_log (demo_urljoin "https://komikcast.cz/" ("komik/" ++ "alpha" ++ "/"))
                                 0 3)) [alpha_row]).
Proof.
  assert (H1 : is_failure HttpConnErr) by exact I.
  assert (H2 : is_failure (HttpStatus 503 None)) by exact I.
  assert (H3 : is_failure (HttpStatus 404 None)) by exact I.
  split; [exact H1|]. split; [exact H2|]. split; [exact H3|].
  exact (main_comic_page_unreachable (fun x => x) alpha_parse demo_urljoin no_float Db.enum_accepts "alpha"
           "https://komikcast.cz/" "" 0 down_w [alpha_row] _ _ _ [] H1 H2 H3 eq_refl).
Defined.

Definition meta_down_w : World := mkWorld [] true [HttpOk (mkBody []); HttpConnErr] [] [].

Lemma main_meta_fetch_fails_witness :
  is_failure HttpConnErr
  /\ main (fun x => x) alpha_parse demo_urljoin no_float Db.enum_accepts "alpha" "https://komikcast.cz/" "" 0
       (mkSt meta_down_w [alpha_row])
     = (Ok [], mkSt (after meta_down_w [] [EvGet alpha_url; EvGet alpha_url]) [alpha_row]).
Proof.
  assert (H : is_failure HttpConnErr) by exact I.
  split; [exact H|].
  exact (main_meta_fetch_fails (fun x => x) alpha_parse demo_urljoin no_float Db.enum_accepts "alpha"
           "https://komikcast.cz/" "" 0 meta_down_w [alpha_row] (mkBody []) _ [] eq_refl H).
Defined.

Lemma main_no_save_without_chapters_witness :
  (get_chapter_list (pg_chapter_links (alpha_parse (mkBody []))) = [] \/
   (Str.strip " two " <> EmptyString /\ no_float (Str.strip " two ") = None))
  /\ fst (main (fun x => x) alpha_parse demo_urljoin no_float Db.enum_accepts "alpha" "https://komikcast.cz/"
            " two " 0 (mkSt cover_stored_w [])) = Ok []
  /\ st_db (snd (main (fun x => x) alpha_parse demo_urljoin no_float Db.enum_accepts "alpha"
                   "https://komikcast.cz/" " two " 0 (mkSt cover_stored_w []))) = [].
Proof.
  assert (H : get_chapter_list (pg_chapter_links (alpha_parse (mkBody []))) = [] \/
              (Str.strip " two " <> EmptyString /\ no_float (Str.strip " two ") = None)).
  { right. split; [vm_compute; discriminate|reflexivity]. }
  split; [exact H|].
  exact (main_no_save_without_chapters (fun x => x) alpha_parse demo_urljoin no_float Db.enum_accepts "alpha"
           "https://komikcast.cz/" " two " 0 cover_stored_w [] (mkBody []) _ eq_refl H).
Defined.

(** The cover and chapter 1 are stored, the table is empty. *)
Definition rerun_w : World :=
  mkWorld ["alpha/cover"; "alpha/chapter-1.0/001"] true
          [HttpOk (mkBody []); HttpOk (mkBody [])] [] [].

(** [float(s)] on the one input the witness types in. *)
Definition demo_float (s : string) : option pyfloat :=
  if String.eqb s "1.5" then Some (float_of_dec "1" (Some "5")) else None.

Lemma main_cover_present_new_comic_not_saved_witness :
  w_http rerun_w = HttpOk (mkBody []) :: HttpOk (mkBody []) :: []
  /\ pg_thumb (alpha_parse (mkBody [])) = Some (Some "https://img/cover.jpg")
  /\ stored rerun_w ("alpha" ++ "/cover") = true
  /\ Forall (fun c => Db.slug c <> "alpha") []
  /\ get_chapter_list (pg_chapter_links (alpha_parse (mkBody []))) <> []
  /\ (Str.strip " 1.5 " <> EmptyString /\
      exists f, demo_float (Str.strip " 1.5 ") = Some f
                /\ Some (float_of_dec "1" (Some "5")) = Some f)
  /\ map ch_url (filter (fun ch => negb (stored rerun_w (main_folder_key "alpha" ch)))
                        (filter_start (Some (float_of_dec "1" (Some "5")))
                           (get_chapter_list (pg_chapter_links (alpha_parse (mkBody []))))))
     = ["https://komikcast.cz/chapter/alpha-chapter-2/"]
  /\ main (fun x => x) alpha_parse demo_urljoin demo_float Db.enum_accepts "alpha"
       "https://komikcast.cz/" " 1.5 " 0 (mkSt rerun_w [])
     = (Ok (map ch_url (filter (fun ch => negb (stored rerun_w (main_folder_key "alpha" ch)))
                               (filter_start (Some (float_of_dec "1" (Some "5")))
                                  (get_chapter_list (pg_chapter_links (alpha_parse (mkBody []))))))),
        mkSt (after rerun_w []
                (EvGet (demo_urljoin "https://komikcast.cz/" ("komik/" ++ "alpha" ++ "/")) ::
                 EvGet (demo_urljoin "https://komikcast.cz/" ("komik/" ++ "alpha" ++ "/")) ::
                 EvResources ("alpha" ++ "/cover") ::
                 map (fun ch => EvResources (main_folder_key "alpha" ch))
                     (filter_start (Some (float_of_dec "1" (Some "5")))
                        (get_chapter_list (pg_chapter_links (alpha_parse (mkBody [])))))))
             []).
Proof.
  assert (H3 : stored rerun_w ("alpha" ++ "/cover") = true) by (vm_compute; reflexivity).
  assert (H5 : get_chapter_list (pg_chapter_links (alpha_parse (mkBody []))) <> [])
    by (vm_compute; discriminate).
  assert (H6 : Str.strip " 1.5 " <> EmptyString /\
               exists f, demo_float (Str.strip " 1.5 ") = Some f
                         /\ Some (float_of_dec "1" (Some "5")) = Some f).
  { split; [vm_compute; discriminate|]. eexists. split; [vm_compute; reflexivity|reflexivity]. }
  split; [reflexivity|]. split; [reflexivity|]. split; [exact H3|].
  split; [constructor|]. split; [exact H5|]. split; [exact H6|].
  split; [vm_compute; reflexivity|].
  exact (main_cover_present_new_comic_not_saved (fun x => x) alpha_parse demo_urljoin demo_float
           Db.enum_accepts "alpha" "https://komikcast.cz/" " 1.5 " 0 rerun_w [] (mkBody [])
           (mkBody []) [] _ _ eq_refl eq_refl H3 (Forall_nil _) H5 (or_intror H6)).
Defined.

End Extra.
